(** * police_data_extract: ingestion pipeline and proximity query

    A shallow embedding of the core of the repository:

    - [Catalog]    : [extract_relevant_csv_files]  (postgre/upload_to_prod.py)
    - [Normalizer] : [format_dataframe]            (extract/common/transformations.py)
    - [BigQuery]   : [load_staging_to_production]  (bigquery/prod/insert.py)
    - [Postgres]   : [write_csv_to_staging], [upload_staging_to_prod],
                     [truncate_staging], [main]    (postgre/upload_to_prod.py)
    - [Api]        : [get_crimes]                  (app.py)

    Python strings are [string]; SQL NULL and pandas NaN are [None];
    exceptions are explicit result constructors; the database, the log and
    the sequence of calls are threaded through a [world] record. *)

From Stdlib Require Import List String Ascii Bool Arith PeanoNat ZArith Lia.
From Stdlib Require Import DecimalString ZifyNat.
Import ListNotations.
Open Scope list_scope.
Open Scope string_scope.
Open Scope Z_scope.

Set Implicit Arguments.

(** ** Python values and logging *)

Module Py.

(** what a call hands back to its caller, as far as the sources use it *)
Inductive value :=
| PyNone
| PyInt (n : Z).

Inductive level := INFO | WARNING | ERROR.

(** one record emitted through [logging] *)
Definition log_entry := (level * string)%type.

(** [str(n)] for a length *)
Definition str_of_nat (n : nat) : string :=
  NilZero.string_of_uint (Nat.to_uint n).

End Py.

(** ** Python string primitives used by the sources *)

Module PyStr.

(** [s.startswith(p)] *)
Fixpoint startswith (p s : string) : bool :=
  match p, s with
  | EmptyString, _ => true
  | String a p', String b s' => Ascii.eqb a b && startswith p' s'
  | String _ _, EmptyString => false
  end.

(** string reversal, used for suffix tests and negative indices *)
Fixpoint rev_onto (s acc : string) : string :=
  match s with
  | EmptyString => acc
  | String c s' => rev_onto s' (String c acc)
  end.

Definition reverse (s : string) : string := rev_onto s EmptyString.

(** [s.endswith(p)] *)
Definition endswith (p s : string) : bool :=
  startswith (reverse p) (reverse s).

(** [s.split(sep)] for a one-character separator: never returns the empty
    list, and adjacent separators give empty pieces. *)
Fixpoint split (sep : ascii) (s : string) : list string :=
  match s with
  | EmptyString => [EmptyString]
  | String c rest =>
      if Ascii.eqb c sep then EmptyString :: split sep rest
      else match split sep rest with
           | [] => [String c EmptyString]
           | piece :: pieces => String c piece :: pieces
           end
  end.

(** [l[-k]] for [k >= 1]; [None] stands for IndexError. *)
Definition index_from_end {A} (l : list A) (k : nat) : option A :=
  nth_error (rev l) (k - 1)%nat.

(** [s.replace(old, new)] for a non-empty [old]: occurrences are replaced
    left to right without overlap.  [skip] counts the characters of a
    matched occurrence that are still to be dropped. *)
Fixpoint replace_from (old new : string) (skip : nat) (s : string) : string :=
  match s with
  | EmptyString => EmptyString
  | String c rest =>
      match skip with
      | S k => replace_from old new k rest
      | O =>
          if startswith old s
          then new ++ replace_from old new (String.length old - 1)%nat rest
          else String c (replace_from old new 0 rest)
      end
  end.

Definition replace (old new s : string) : string := replace_from old new 0 s.

(** [x in l] for a list of strings *)
Definition mem (x : string) (l : list string) : bool :=
  existsb (String.eqb x) l.

Definition is_digit (c : ascii) : bool :=
  let n := Z.of_nat (nat_of_ascii c) in (48 <=? n) && (n <=? 57).

Definition digit_val (c : ascii) : Z := Z.of_nat (nat_of_ascii c) - 48.

Definition digit_char (d : Z) : ascii := ascii_of_nat (Z.to_nat (48 + d mod 10)).

(** decimal rendering of [n] on exactly [width] digits (zero padded) *)
Fixpoint zero_pad (width : nat) (n : Z) : string :=
  match width with
  | O => EmptyString
  | S w => zero_pad w (n / 10) ++ String (digit_char n) EmptyString
  end.

(** posixpath.join(a, b) *)
Definition path_join (a b : string) : string :=
  if startswith "/" b then b
  else if (String.length a =? 0)%nat || endswith "/" a then a ++ b
  else a ++ "/" ++ b.

End PyStr.

(** ** Partition Catalog: [extract_relevant_csv_files] *)

Module Catalog.

Import PyStr.

(** A [datetime] restricted to what the function reads: the day is always 1
    (both [strptime] with "%Y-%m" and [replace(day=1)] give day 1). *)
Record datetime := mkdt { year : Z; month : Z }.

Definition MINYEAR := 1.
Definition MAXYEAR := 9999.

(** [a <= b] on datetimes *)
Definition dt_leb (a b : datetime) : bool :=
  (year a <? year b) || ((year a =? year b) && (month a <=? month b)).

(** The month field of "%m": one of 1[0-2], 0[1-9], [1-9], tried in that
    order, and nothing may remain after it. *)
Definition parse_month (s : string) : option Z :=
  match s with
  | String a (String b EmptyString) =>
      if is_digit a && is_digit b then
        let m := 10 * digit_val a + digit_val b in
        if (1 <=? m) && (m <=? 12) then Some m else None
      else None
  | String a EmptyString =>
      if is_digit a && (1 <=? digit_val a) then Some (digit_val a) else None
  | _ => None
  end.

(** [datetime.strptime(s, "%Y-%m")]: four digits, a dash, the month.
    [None] stands for ValueError (also raised for year 0000). *)
Definition strptime_Ym (s : string) : option datetime :=
  match s with
  | String a (String b (String c (String d (String dash rest)))) =>
      if is_digit a && is_digit b && is_digit c && is_digit d
         && Ascii.eqb dash "-"%char
      then
        let y := 1000 * digit_val a + 100 * digit_val b
                 + 10 * digit_val c + digit_val d in
        match parse_month rest with
        | Some m => if MINYEAR <=? y then Some (mkdt y m) else None
        | None => None
        end
      else None
  | _ => None
  end.

(** "%Y" as the C library prints it on Linux: the year as a decimal
    number, not padded (987 gives "987"); a datetime holds years up to
    9999 *)
Definition year_text (y : Z) : string :=
  if y <? 10 then zero_pad 1 y
  else if y <? 100 then zero_pad 2 y
  else if y <? 1000 then zero_pad 3 y
  else zero_pad 4 y.

(** [d.strftime("%Y-%m")] *)
Definition strftime_Ym (d : datetime) : string :=
  year_text (year d) ++ "-" ++ zero_pad 2 (month d).

(** [current.replace(year=y, month=m)]; [None] stands for the ValueError
    that datetime raises outside MINYEAR..MAXYEAR or months 1..12. *)
Definition dt_replace (y m : Z) : option datetime :=
  if (MINYEAR <=? y) && (y <=? MAXYEAR) && (1 <=? m) && (m <=? 12)
  then Some (mkdt y m) else None.

(** Python's [a or b] on integers *)
Definition int_or (a b : Z) : Z := if a =? 0 then b else a.

(** the step at the bottom of the while loop *)
Definition next_month_of (current : datetime) : option datetime :=
  let next_month := month current + 1 in
  dt_replace (year current + next_month / 13) (int_or (next_month mod 12) 12).

Inductive error :=
| FileNotFoundError
| ValueError_format      (* "Start date and end date must be in 'YYYY-MM' format." *)
| ValueError_range.      (* raised by datetime.replace *)

Inductive loop_result :=
| Finished (date_range : list string)
| Raised (e : error)
| OutOfFuel.

(** The while loop that fills [date_range]; [fuel] bounds the number of
    iterations and [acc] is the list built so far. *)
Fixpoint month_loop (fuel : nat) (current end_ : datetime) (acc : list string)
  : loop_result :=
  if dt_leb current end_ then
    match fuel with
    | O => OutOfFuel
    | S fuel' =>
        let acc' := (acc ++ [strftime_Ym current])%list in
        match next_month_of current with
        | Some next => month_loop fuel' next end_ acc'
        | None => Raised ValueError_range
        end
    end
  else Finished acc.

Definition months_of (d : datetime) : Z := 12 * year d + month d.

(** enough iterations for every window *)
Definition loop_fuel (start end_ : datetime) : nat :=
  S (Z.to_nat (months_of end_ - months_of start)).

Definition build_date_range (start end_ : datetime) : loop_result :=
  month_loop (loop_fuel start end_) start end_ [].

(** What the function sees of the file system: [os.path.exists] and the
    (root, files) pairs that [os.walk] yields, in its order. *)
Record filesystem := {
  path_exists : string -> bool;
  os_walk : string -> list (string * list string)
}.

(** the f-string of line 75; [None] stands for IndexError *)
Definition month_year_of (file_path : string) : option string :=
  let parts := split "/"%char file_path in
  match index_from_end parts 2, index_from_end parts 1 with
  | Some dir, Some file => Some (dir ++ "-" ++ replace ".csv" "" file)
  | _, _ => None
  end.

(** body of the try block: is the path appended to [csv_files]? *)
Definition selected (date_range : list string) (file_path : string) : bool :=
  match month_year_of file_path with
  | Some month_year => mem month_year date_range
  | None => false
  end.

(** the paths the two nested loops look at, in order *)
Definition walked_csv_paths (fs : filesystem) (data_folder : string)
  : list string :=
  flat_map (fun entry =>
              map (path_join (fst entry))
                  (filter (endswith ".csv") (snd entry)))
           (os_walk fs data_folder).

Inductive result :=
| Ok (csv_files : list string)
| Err (e : error)
| Diverged.

Definition extract_relevant_csv_files
  (fs : filesystem) (data_folder start_date end_date : string) : result :=
  if negb (path_exists fs data_folder) then Err FileNotFoundError
  else
    match strptime_Ym start_date, strptime_Ym end_date with
    | Some start, Some end_ =>
        match build_date_range start end_ with
        | Finished date_range =>
            Ok (filter (selected date_range) (walked_csv_paths fs data_folder))
        | Raised e => Err e
        | OutOfFuel => Diverged
        end
    | _, _ => Err ValueError_format
    end.

(** a date as [strptime] and [replace] produce them *)
Definition valid (d : datetime) : Prop :=
  1 <= month d <= 12 /\ MINYEAR <= year d <= MAXYEAR.

(** the last month a datetime can hold *)
Definition last_month : datetime := mkdt MAXYEAR 12.

(** [d] lies in the window [start, end_], at month granularity *)
Definition in_window (start end_ d : datetime) : Prop :=
  1 <= month d <= 12 /\ dt_leb start d = true /\ dt_leb d end_ = true.

End Catalog.

(** ** Record Normalizer: [format_dataframe] *)

Module Normalizer.

Import PyStr.

(** A cell of a table; [None] is NaN (a missing value). *)
Definition cell := option string.

Definition row := list cell.

(** A [pd.DataFrame]: the column labels and the rows, each row holding one
    cell per column.  The index is left out: the function never reads it. *)
Record DataFrame := mkdf { columns : list string; rows : list row }.

(** DataFrames are objects: a variable holds a reference into the store,
    and assigning to [df.columns] updates the object every alias sees. *)
Definition ref := nat.
Definition store := list DataFrame.

Definition deref (st : store) (r : ref) : option DataFrame := nth_error st r.

Fixpoint update (st : store) (r : ref) (d : DataFrame) : store :=
  match st, r with
  | [], _ => []
  | _ :: rest, O => d :: rest
  | x :: rest, S r' => x :: update rest r' d
  end.

Definition alloc (st : store) (d : DataFrame) : store * ref :=
  ((st ++ [d])%list, List.length st).

Definition SELECT_COLS : list string :=
  ["crime_id"; "month"; "falls_within"; "longitude"; "latitude";
   "lsoa_code"; "crime_type"; "location"].

Definition RENAMED_COLUMNS : list string :=
  ["crime_id"; "month_year"; "police_force"; "longitude"; "latitude";
   "lsoa_code"; "crime_type"; "location_description"].

(** [c.lower()] on an ASCII character *)
Definition lower_char (c : ascii) : ascii :=
  let n := nat_of_ascii c in
  if ((65 <=? n) && (n <=? 90))%nat then ascii_of_nat (n + 32) else c.

Fixpoint lower (s : string) : string :=
  match s with
  | EmptyString => EmptyString
  | String c rest => String (lower_char c) (lower rest)
  end.

(** [col.replace(" ", "_").lower()] *)
Definition normalise_column (col : string) : string :=
  lower (replace " " "_" col).

(** [df.empty]: one of the two axes has length 0 *)
Definition empty (d : DataFrame) : bool :=
  (List.length (rows d) =? 0)%nat || (List.length (columns d) =? 0)%nat.

(** positions of the columns labelled [c] *)
Fixpoint positions_from (i : nat) (c : string) (cols : list string) : list nat :=
  match cols with
  | [] => []
  | x :: rest =>
      if String.eqb x c then i :: positions_from (S i) c rest
      else positions_from (S i) c rest
  end.

Definition positions (c : string) (cols : list string) : list nat :=
  positions_from 0 c cols.

Definition cell_at (r : row) (i : nat) : cell :=
  match nth_error r i with Some v => v | None => None end.

(** [df[labels]]: for each label, every column that carries it *)
Definition select_columns (labels : list string) (d : DataFrame) : DataFrame :=
  let picked := flat_map (fun c => map (fun i => (c, i)) (positions c (columns d)))
                         labels in
  {| columns := map fst picked;
     rows := map (fun r => map (fun ci => cell_at r (snd ci)) picked) (rows d) |}.

(** [df[c]] read in one row, for a label carried by one column *)
Definition value (d : DataFrame) (c : string) (r : row) : cell :=
  match positions c (columns d) with
  | i :: _ => cell_at r i
  | [] => None
  end.

Definition notna (v : cell) : bool :=
  match v with Some _ => true | None => false end.

(** [df[mask]] for a mask computed row by row *)
Definition where_ (mask : row -> bool) (d : DataFrame) : DataFrame :=
  {| columns := columns d; rows := filter mask (rows d) |}.

(** equality of cells as [duplicated] sees it: NaN equals NaN *)
Definition cell_eqb (a b : cell) : bool :=
  match a, b with
  | Some x, Some y => String.eqb x y
  | None, None => true
  | _, _ => false
  end.

Fixpoint row_eqb (a b : row) : bool :=
  match a, b with
  | [], [] => true
  | x :: a', y :: b' => cell_eqb x y && row_eqb a' b'
  | _, _ => false
  end.

Definition row_in (r : row) (seen : list row) : bool :=
  existsb (row_eqb r) seen.

(** rows already [seen] are dropped, the first occurrence is kept *)
Fixpoint drop_seen (seen : list row) (l : list row) : list row :=
  match l with
  | [] => []
  | r :: rest =>
      if row_in r seen then drop_seen seen rest
      else r :: drop_seen (r :: seen) rest
  end.

(** [df.drop_duplicates()] (keep="first"; NaN equals NaN) *)
Definition drop_duplicates (d : DataFrame) : DataFrame :=
  {| columns := columns d; rows := drop_seen [] (rows d) |}.

Inductive exn :=
| ValueError_empty                          (* "Input DataFrame is empty." *)
| KeyError_missing (missing_cols : list string)
| ValueError_length_mismatch                (* raised by [df.columns = ...] *)
| NameError_unbound.                        (* the argument is not an object *)

Inductive outcome :=
| Returned (df : ref)
| Raised (e : exn).

Definition set_columns (d : DataFrame) (labels : list string) : option DataFrame :=
  if (List.length labels =? List.length (columns d))%nat
  then Some {| columns := labels; rows := rows d |}
  else None.

(** [format_dataframe(df)]: the store after the call and what the call
    gives back.  The first assignment to [df.columns] is made on the
    caller's object; [df = df[...]] rebinds the local name to a new one. *)
Definition format_dataframe (st : store) (df : ref) : store * outcome :=
  match deref st df with
  | None => (st, Raised NameError_unbound)
  | Some d0 =>
      if empty d0 then (st, Raised ValueError_empty)
      else
        let d1 := {| columns := map normalise_column (columns d0);
                     rows := rows d0 |} in
        let st1 := update st df d1 in
        let missing_cols :=
          filter (fun col => negb (mem col (columns d1))) SELECT_COLS in
        match missing_cols with
        | _ :: _ => (st1, Raised (KeyError_missing missing_cols))
        | [] =>
            let (st2, df2) := alloc st1 (select_columns SELECT_COLS d1) in
            match set_columns (select_columns SELECT_COLS d1) RENAMED_COLUMNS with
            | None => (st2, Raised ValueError_length_mismatch)
            | Some d2 =>
                let st2' := update st2 df2 d2 in
                let d3 := where_ (fun r => notna (value d2 "longitude" r)
                                           && notna (value d2 "latitude" r)) d2 in
                let (st3, _) := alloc st2' d3 in
                let d4 := where_ (fun r => notna (value d3 "crime_id" r)) d3 in
                let (st4, _) := alloc st3 d4 in
                let (st5, df5) := alloc st4 (drop_duplicates d4) in
                (st5, Returned df5)
            end
        end
  end.

(** the input with its column names normalised *)
Definition renamed_input (d : DataFrame) : DataFrame :=
  {| columns := map normalise_column (columns d); rows := rows d |}.


End Normalizer.

(** ** Merge Engine on BigQuery: [load_staging_to_production] *)

Module BigQuery.

Import Py.

(** a DATE; "%Y-%m" always yields the first day of a month *)
Definition DATE := Catalog.datetime.

Definition date_eqb (a b : DATE) : bool :=
  (Catalog.year a =? Catalog.year b) && (Catalog.month a =? Catalog.month b).

(** FLOAT64 values are only copied and tested for NULL; they are kept as
    the decimal text they were loaded from. *)
Definition FLOAT64 := string.

Definition GEOGRAPHY := (FLOAT64 * FLOAT64)%type.

(** the staging table, with the column names the query reads *)
Module Staging.
Record row := {
  crime_id : option string;
  month : option string;
  falls_within : option string;
  longitude : option FLOAT64;
  latitude : option FLOAT64;
  lsoa_code : option string;
  crime_type : option string;
  location : option string
}.
End Staging.

(** the production table, with the column names of the INSERT list *)
Module Production.
Record row := {
  crime_id : option string;
  month_year : option DATE;
  police_force : option string;
  longitude : option FLOAT64;
  latitude : option FLOAT64;
  lsoa_code : option string;
  crime_type : option string;
  location_description : option string;
  geo_point : option GEOGRAPHY
}.
End Production.

(** SQL's three-valued logic: [None] is NULL *)
Definition sql_eq {A} (eqb : A -> A -> bool) (x y : option A) : option bool :=
  match x, y with
  | Some a, Some b => Some (eqb a b)
  | _, _ => None
  end.

Definition sql_and (p q : option bool) : option bool :=
  match p, q with
  | Some false, _ | _, Some false => Some false
  | Some true, Some true => Some true
  | _, _ => None
  end.

Definition is_true (p : option bool) : bool :=
  match p with Some true => true | _ => false end.

Definition is_not_null {A} (x : option A) : bool :=
  match x with Some _ => true | None => false end.

(** the dataset: the staging table may not exist, the production table does *)
Record dataset := {
  staging : option (list Staging.row);
  production : list Production.row
}.

Inductive exn :=
| NotFound                      (* the staging table does not exist *)
| QueryFailed (msg : string).   (* the job ended with an error *)

Inductive outcome :=
| Returned (v : value)
| Raised (e : exn).

Section Engine.

(** The two SQL functions of the query; [None] is an error that fails the
    whole job (a malformed month, coordinates out of range).  NULL
    arguments are handled by the callers below and give NULL. *)
Variable PARSE_DATE_Ym : string -> option DATE.
Variable ST_GEOGPOINT : FLOAT64 -> FLOAT64 -> option GEOGRAPHY.

(** one row of the [stage] subquery (the SELECT list) *)
Definition stage_row (s : Staging.row) : option Production.row :=
  let parsed :=
    match Staging.month s with
    | None => Some None
    | Some m => option_map Some (PARSE_DATE_Ym m)
    end in
  let point :=
    match Staging.longitude s, Staging.latitude s with
    | Some lon, Some lat => option_map Some (ST_GEOGPOINT lon lat)
    | _, _ => Some None
    end in
  match parsed, point with
  | Some month_year, Some geo_point =>
      Some {| Production.crime_id := Staging.crime_id s;
              Production.month_year := month_year;
              Production.police_force := Staging.falls_within s;
              Production.longitude := Staging.longitude s;
              Production.latitude := Staging.latitude s;
              Production.lsoa_code := Staging.lsoa_code s;
              Production.crime_type := Staging.crime_type s;
              Production.location_description := Staging.location s;
              Production.geo_point := geo_point |}
  | _, _ => None
  end.

(** WHERE longitude IS NOT NULL AND crime_id IS NOT NULL *)
Definition stage_where (s : Staging.row) : bool :=
  is_not_null (Staging.longitude s) && is_not_null (Staging.crime_id s).

(** all rows of a list, or the first error *)
Fixpoint all_rows {A B} (f : A -> option B) (l : list A) : option (list B) :=
  match l with
  | [] => Some []
  | x :: rest =>
      match f x, all_rows f rest with
      | Some y, Some ys => Some (y :: ys)
      | _, _ => None
      end
  end.

(** the [stage] subquery *)
Definition stage (rows : list Staging.row) : option (list Production.row) :=
  all_rows stage_row (filter stage_where rows).

(** ON prod.crime_id = stage.crime_id AND prod.month_year = stage.month_year *)
Definition merge_on (prod stage : Production.row) : bool :=
  is_true (sql_and
             (sql_eq String.eqb (Production.crime_id prod) (Production.crime_id stage))
             (sql_eq date_eqb (Production.month_year prod) (Production.month_year stage))).

(** WHEN NOT MATCHED: no production row satisfies the ON condition *)
Definition not_matched (prod : list Production.row) (stage : Production.row) : bool :=
  negb (existsb (fun p => merge_on p stage) prod).

(** the rows the MERGE statement inserts *)
Definition inserted (prod : list Production.row) (rows : list Production.row)
  : list Production.row :=
  filter (not_matched prod) rows.

(** [load_staging_to_production]: the job either commits the whole MERGE
    or fails and changes nothing; [service_fault] is an error of the
    service itself.  The function has no [return] statement. *)
Definition load_staging_to_production
  (service_fault : option string) (ds : dataset) (log : list log_entry)
  : dataset * list log_entry * outcome :=
  let log1 := (log ++ [(INFO,
      "Starting query job to load data from staging to production...")])%list in
  match service_fault with
  | Some msg => (ds, log1, Raised (QueryFailed msg))
  | None =>
      match staging ds with
      | None => (ds, log1, Raised NotFound)
      | Some rows =>
          match stage rows with
          | None => (ds, log1, Raised (QueryFailed "invalid value"))
          | Some src =>
              ({| staging := staging ds;
                  production := (production ds ++ inserted (production ds) src)%list |},
               (log1 ++ [(INFO,
                  "Data successfully loaded into production table.")])%list,
               Returned PyNone)
          end
      end
  end.

(** [str(e)] of an exception of the client library: the text the
    service gives it *)
Variable str_of_exn : exn -> string.

(** [delete_staging_table]; every exception is caught and logged.
    [table_id] is [table_ref.table_id]; [service_fault] is the text of an
    exception other than NotFound raised by [client.delete_table]. *)
Definition delete_staging_table
  (table_id : string) (service_fault : option string)
  (ds : dataset) (log : list log_entry)
  : dataset * list log_entry :=
  match service_fault with
  | Some msg =>
      (ds, (log ++ [(ERROR,
         ("Failed to delete staging table '" ++ table_id ++ "': " ++ msg)%string)])%list)
  | None =>
      match staging ds with
      | None =>
          (ds, (log ++ [(WARNING,
             ("Staging table '" ++ table_id
              ++ "' not found; nothing to delete.")%string)])%list)
      | Some _ =>
          ({| staging := None; production := production ds |},
           (log ++ [(INFO,
              ("Staging table '" ++ table_id
               ++ "' successfully deleted.")%string)])%list)
      end
  end.

(** the try block of the script: the staging table is deleted only after
    [load_staging_to_production] has returned; [staging_table_id] is the
    table id of [staging_table_ref] *)
Definition load_then_delete
  (staging_table_id : string) (merge_fault delete_fault : option string)
  (ds : dataset) (log : list log_entry)
  : dataset * list log_entry :=
  match load_staging_to_production merge_fault ds log with
  | (ds1, log1, Returned _) =>
      delete_staging_table staging_table_id delete_fault ds1 log1
  | (ds1, log1, Raised e) =>
      (ds1, (log1 ++ [(ERROR,
         ("Failed to load data from staging to production: "
          ++ str_of_exn e)%string)])%list)
  end.

End Engine.

(** an instance of the two SQL functions, for running the model *)
Definition parse_date_Ym : string -> option DATE := Catalog.strptime_Ym.

Definition st_geogpoint (lon lat : FLOAT64) : option GEOGRAPHY := Some (lon, lat).

(** a rendering of the exceptions, for running the model *)
Definition exn_text (e : exn) : string :=
  match e with
  | NotFound => "404 Not found"
  | QueryFailed msg => msg
  end.

(** the validity invariant of the data model, on one production row ... *)
Definition row_valid (p : Production.row) : bool :=
  is_not_null (Production.crime_id p)
  && is_not_null (Production.longitude p)
  && is_not_null (Production.latitude p).

(** ... and the natural key *)
Definition key (p : Production.row) : option string * option DATE :=
  (Production.crime_id p, Production.month_year p).

(** the invariant on the whole production table *)
Definition valid_store (prod : list Production.row) : Prop :=
  Forall (fun p => row_valid p = true) prod /\ NoDup (map key prod).

End BigQuery.

(** ** Staging Loader, Merge Engine and Batch Controller on PostgreSQL *)

Module Postgres.

Import Py.

(** a column value as text; [None] is NULL *)
Definition cell := option string.

Module Staging.
Record row := {
  crime_id : cell;
  month_year : cell;
  police_force : cell;
  longitude : cell;
  latitude : cell;
  lsoa_code : cell;
  crime_type : cell;
  location_description : cell
}.
End Staging.

Module Production.
Record row := {
  crime_id : cell;
  month_year : cell;
  police_force : cell;
  longitude : cell;
  latitude : cell;
  lsoa_code : cell;
  crime_type : cell;
  location_description : cell;
  geo_point : option (string * string)
}.
End Production.

Record database := {
  crimes_staging : list Staging.row;
  crimes_prod : list Production.row
}.

(** the three functions [main] calls on the database *)
Inductive call :=
| Stage (file_path : string)      (* write_csv_to_staging *)
| Merge                           (* upload_staging_to_prod *)
| Truncate.                       (* truncate_staging *)

(** The state of a run: the database, the log, the calls made so far and
    the number of connections opened so far. *)
Record world := {
  db : database;
  log : list log_entry;
  calls : list call;
  sessions : nat
}.

(** What a run does not control.
    - [csv_rows]: the rows COPY reads from a file, or the text of the
      exception that [open] or COPY raises;
    - [session_fault]: the exception, if any, that the n-th connection
      raises before its commit;
    - [prod_violation]: the constraints declared on [crimes_prod] (its
      DDL is not part of the sources), as the error they raise on a table
      content they reject. *)
Record environment := {
  csv_rows : string -> (string + list Staging.row)%type;
  session_fault : nat -> option string;
  prod_violation : list Production.row -> option string
}.

(** a connection is opened and the call recorded *)
Definition connect (c : call) (w : world) : world :=
  {| db := db w; log := log w;
     calls := (calls w ++ [c])%list; sessions := S (sessions w) |}.

(** [log.error(msg)] *)
Definition log_error (msg : string) (w : world) : world :=
  {| db := db w; log := (log w ++ [(ERROR, msg)])%list;
     calls := calls w; sessions := sessions w |}.

(** [log.info(msg)] *)
Definition log_info (msg : string) (w : world) : world :=
  {| db := db w; log := (log w ++ [(INFO, msg)])%list;
     calls := calls w; sessions := sessions w |}.

(** [connection.commit()] of a new database content *)
Definition commit (d : database) (w : world) : world :=
  {| db := d; log := log w; calls := calls w; sessions := sessions w |}.

(** [write_csv_to_staging]: COPY appends the rows of the file in one
    transaction; every exception is caught and logged. *)
Definition write_csv_to_staging
  (env : environment) (file_path : string) (w : world) : world :=
  let w1 := connect (Stage file_path) w in
  match session_fault env (sessions w) with
  | Some e => log_error ("Error loading CSV: " ++ e) w1
  | None =>
      match csv_rows env file_path with
      | inl e => log_error ("Error loading CSV: " ++ e) w1
      | inr rows =>
          commit {| crimes_staging := (crimes_staging (db w) ++ rows)%list;
                    crimes_prod := crimes_prod (db w) |} w1
      end
  end.

(** ST_SetSRID(ST_MakePoint(longitude, latitude), 4326) *)
Definition make_point (lon lat : cell) : option (string * string) :=
  match lon, lat with
  | Some x, Some y => Some (x, y)
  | _, _ => None
  end.

(** one row of the SELECT *)
Definition select_row (s : Staging.row) : Production.row :=
  {| Production.crime_id := Staging.crime_id s;
     Production.month_year := Staging.month_year s;
     Production.police_force := Staging.police_force s;
     Production.longitude := Staging.longitude s;
     Production.latitude := Staging.latitude s;
     Production.lsoa_code := Staging.lsoa_code s;
     Production.crime_type := Staging.crime_type s;
     Production.location_description := Staging.location_description s;
     Production.geo_point := make_point (Staging.longitude s) (Staging.latitude s) |}.

(** [upload_staging_to_prod]: INSERT INTO crimes_prod ... SELECT ... FROM
    crimes_staging, committed as one transaction; every exception is
    caught and logged, and nothing is returned. *)
Definition upload_staging_to_prod (env : environment) (w : world) : world :=
  let w1 := connect Merge w in
  match session_fault env (sessions w) with
  | Some e => log_error ("Error uploading to production: " ++ e) w1
  | None =>
      let prod' := (crimes_prod (db w) ++ map select_row (crimes_staging (db w)))%list in
      match prod_violation env prod' with
      | Some e => log_error ("Error uploading to production: " ++ e) w1
      | None =>
          commit {| crimes_staging := crimes_staging (db w);
                    crimes_prod := prod' |} w1
      end
  end.

(** [truncate_staging]: TRUNCATE TABLE crimes_staging *)
Definition truncate_staging (env : environment) (w : world) : world :=
  let w1 := connect Truncate w in
  match session_fault env (sessions w) with
  | Some e => log_error ("Error truncating staging table: " ++ e) w1
  | None =>
      commit {| crimes_staging := []; crimes_prod := crimes_prod (db w) |} w1
  end.

(** the for loop of [main], with its counter *)
Fixpoint main_loop
  (env : environment) (files : list string) (loading_count : Z) (w : world)
  : world :=
  match files with
  | [] => w
  | file_path :: rest =>
      let w1 := write_csv_to_staging env file_path w in
      let loading_count := loading_count + 1 in
      if loading_count =? 5 then
        let w2 := upload_staging_to_prod env w1 in
        let w3 := truncate_staging env w2 in
        main_loop env rest 0 w3
      else main_loop env rest loading_count w1
  end.

(** RUN_CONFIG of the configuration file *)
Record run_config := {
  data_path : string;
  start_date : string;
  end_date : string
}.

Inductive main_outcome :=
| Completed (w : world)
| Uncaught (e : Catalog.error)
| NoResult.

(** [main] *)
Definition main
  (env : environment) (fs : Catalog.filesystem) (RUN_CONFIG : run_config)
  (w : world) : main_outcome :=
  match Catalog.extract_relevant_csv_files fs (data_path RUN_CONFIG)
          (start_date RUN_CONFIG) (end_date RUN_CONFIG) with
  | Catalog.Ok files =>
      let file_count := List.length files in
      let w1 := log_info ("Preparing to ingest " ++ str_of_nat file_count
                          ++ " files to staging and production.") w in
      Completed (main_loop env files 0 w1)
  | Catalog.Err e => Uncaught e
  | Catalog.Diverged => NoResult
  end.

(** how often a call occurs in a trace *)
Definition is_merge (c : call) : bool :=
  match c with Merge => true | _ => false end.


(** the number of files staged before each merge since the previous one *)
Fixpoint batches_from (pending : nat) (trace : list call) : list nat :=
  match trace with
  | [] => []
  | Stage _ :: rest => batches_from (S pending) rest
  | Merge :: rest => pending :: batches_from 0 rest
  | Truncate :: rest => batches_from pending rest
  end.

Definition merged_batches (trace : list call) : list nat := batches_from 0 trace.

(** The calls a controller makes when it merges and truncates after every
    fifth file of the sequence: the file at position [i] (from 1) is
    followed by a merge and a truncation exactly when 5 divides [i]. *)
Fixpoint schedule_from (i : nat) (files : list string) : list call :=
  match files with
  | [] => []
  | f :: rest =>
      (Stage f ::
       (if (i mod 5 =? 0)%nat then [Merge; Truncate] else []))
      ++ schedule_from (S i) rest
  end%list.


(** an empty database and an empty log *)
Definition initial_world : world :=
  {| db := {| crimes_staging := []; crimes_prod := [] |};
     log := []; calls := []; sessions := 0 |}.

End Postgres.

(** ** Proximity Query Service: [get_crimes] *)

Module Api.

Section Service.

(** query parameters and result rows are only passed through *)
Variable float : Type.
Variable record : Type.

(** The database as the endpoint sees it: [connect] is the error of
    [get_connection], if any; [fetch] is the result of executing the
    query and fetching all rows, or the error raised on the way. *)
Record backend := {
  connect : option string;
  fetch : float -> float -> float -> (string + list record)%type
}.

Inductive exn :=
| HTTPException (status_code : Z) (detail : detail)
| DatabaseError (msg : string)
| UnboundLocalError                    (* [conn] read before assignment *)
with detail :=
| Text (s : string)
| Str (e : exn).                       (* [str(e)] *)

Inductive outcome :=
| Return (results : list record)
| Raise (e : exn).

(** the body of the [with] block *)
Definition query_body (be : backend) (longitude latitude radius : float) : outcome :=
  match fetch be longitude latitude radius with
  | inl msg => Raise (DatabaseError msg)
  | inr results =>
      match results with
      | [] => Raise (HTTPException 404 (Text "No crimes found in the given area."))
      | _ :: _ => Return results
      end
  end.

(** [except Exception as e: raise HTTPException(status_code=500, ...)];
    HTTPException is itself an Exception. *)
Definition except_Exception (o : outcome) : outcome :=
  match o with
  | Return results => Return results
  | Raise e => Raise (HTTPException 500 (Str e))
  end.

(** [get_crimes]; when [get_connection] raises, [conn] is unbound and the
    [finally] clause raises in turn, which replaces the exception in flight. *)
Definition get_crimes (be : backend) (longitude latitude radius : float) : outcome :=
  match connect be with
  | Some msg => Raise UnboundLocalError
  | None => except_Exception (query_body be longitude latitude radius)
  end.

(** the status of the HTTP response: 200 for a returned value, the status
    of an HTTPException, 500 for any other exception *)
Definition response_status (o : outcome) : Z :=
  match o with
  | Return _ => 200
  | Raise (HTTPException status_code _) => status_code
  | Raise _ => 500
  end.

(** The route [GET /crimes/].  Before it calls the function, FastAPI reads
    the three query parameters from the request and validates them
    against the signature: [longitude] and [latitude] are required
    floats, [radius] is a float declared [Query(1000, gt=0)].  A query
    parameter is absent, is not the text of a float, or has a value. *)
Inductive param :=
| Absent
| Malformed
| Value (x : float).

Variable gt_zero : float -> bool.       (* [x > 0] *)
Variable default_radius : float.        (* 1000 *)

(** the arguments the function is called with, or [None] when the
    request is refused; the default of [radius] is taken as it is *)
Definition validate (longitude latitude radius : param)
  : option (float * float * float) :=
  match longitude, latitude with
  | Value lon, Value lat =>
      match radius with
      | Absent => Some (lon, lat, default_radius)
      | Malformed => None
      | Value r => if gt_zero r then Some (lon, lat, r) else None
      end
  | _, _ => None
  end.

(** the status of the response to a request: 422 when validation refuses
    it, that of the function's outcome otherwise *)
Definition crimes_route (be : backend) (longitude latitude radius : param) : Z :=
  match validate longitude latitude radius with
  | None => 422
  | Some (lon, lat, r) => response_status (get_crimes be lon lat r)
  end.

End Service.

End Api.

(** ** Inputs on which the model is run *)

Module Examples.

Import Py.

(** the directory tree of the partition-selection property of the
    specification: four months of 2023 and one of 2022, with a stray file *)
Definition fs_2023 : Catalog.filesystem :=
  {| Catalog.path_exists := fun p => String.eqb p "data";
     Catalog.os_walk := fun _ =>
       [("data", []);
        ("data/lancashire", ["README.txt"]);
        ("data/lancashire/2023", ["07.csv"; "08.csv"; "09.csv"; "10.csv"]);
        ("data/lancashire/2022", ["07.csv"])] |}.

(** a tree holding a month of the year 987, its folder on four digits *)
Definition fs_0987 : Catalog.filesystem :=
  {| Catalog.path_exists := fun p => String.eqb p "data";
     Catalog.os_walk := fun _ => [("data/lancashire/0987", ["03.csv"])] |}.

(** a tree holding the last month a datetime can represent *)
Definition fs_9999 : Catalog.filesystem :=
  {| Catalog.path_exists := fun p => String.eqb p "data";
     Catalog.os_walk := fun _ => [("data/lancashire/9999", ["12.csv"])] |}.

(** a raw table as read from a source file: the second row repeats the
    first on the required columns, the third lacks a longitude and the
    fourth a crime id *)
Definition raw_table : Normalizer.DataFrame :=
  Normalizer.mkdf
    ["Crime ID"; "Month"; "Falls within"; "Longitude"; "Latitude";
     "LSOA code"; "Crime type"; "Location"; "Context"]
    [[Some "a"; Some "2023-07"; Some "L"; Some "-2.5"; Some "53.8"; None;
      Some "Burglary"; Some "High Street"; None];
     [Some "a"; Some "2023-07"; Some "L"; Some "-2.5"; Some "53.8"; None;
      Some "Burglary"; Some "High Street"; Some "x"];
     [Some "b"; Some "2023-07"; Some "L"; None; Some "53.8"; None;
      Some "Burglary"; Some "High Street"; None];
     [None; Some "2023-07"; Some "L"; Some "-2.5"; Some "53.8"; None;
      Some "Burglary"; Some "High Street"; None]].

(** one staged row per file, carrying the file name as its crime id *)
Definition row_of (id : string) : Postgres.Staging.row :=
  {| Postgres.Staging.crime_id := Some id;
     Postgres.Staging.month_year := Some "2023-07-01";
     Postgres.Staging.police_force := Some "Lancashire Constabulary";
     Postgres.Staging.longitude := Some "-2.5";
     Postgres.Staging.latitude := Some "53.8";
     Postgres.Staging.lsoa_code := None;
     Postgres.Staging.crime_type := Some "Burglary";
     Postgres.Staging.location_description := Some "On or near High Street" |}.

(** every file loads, no connection fails, no constraint rejects *)
Definition env_ok : Postgres.environment :=
  {| Postgres.csv_rows := fun f => inr [row_of f];
     Postgres.session_fault := fun _ => None;
     Postgres.prod_violation := fun _ => None |}.

(** as [env_ok], but the sixth connection of the run (the first merge,
    after five loads) fails *)
Definition env_merge_fails : Postgres.environment :=
  {| Postgres.csv_rows := fun f => inr [row_of f];
     Postgres.session_fault :=
       fun n => if (n =? 5)%nat then Some "connection lost" else None;
     Postgres.prod_violation := fun _ => None |}.

(** as [env_ok], but the third file cannot be loaded *)
Definition env_bad_file : Postgres.environment :=
  {| Postgres.csv_rows :=
       fun f => if String.eqb f "03.csv" then inl "invalid input syntax"
                else inr [row_of f];
     Postgres.session_fault := fun _ => None;
     Postgres.prod_violation := fun _ => None |}.

Definition files5 : list string :=
  ["01.csv"; "02.csv"; "03.csv"; "04.csv"; "05.csv"].

Definition files12 : list string :=
  ["01.csv"; "02.csv"; "03.csv"; "04.csv"; "05.csv"; "06.csv";
   "07.csv"; "08.csv"; "09.csv"; "10.csv"; "11.csv"; "12.csv"].

(** one region with the twelve months of 2023, and the run configuration
    that selects them all *)
Definition fs_year : Catalog.filesystem :=
  {| Catalog.path_exists := fun p => String.eqb p "data";
     Catalog.os_walk := fun _ =>
       [("data/lancashire/2023",
         ["01.csv"; "02.csv"; "03.csv"; "04.csv"; "05.csv"; "06.csv";
          "07.csv"; "08.csv"; "09.csv"; "10.csv"; "11.csv"; "12.csv"])] |}.

Definition config_year : Postgres.run_config :=
  {| Postgres.data_path := "data";
     Postgres.start_date := "2023-01";
     Postgres.end_date := "2023-12" |}.

(** production already holds the row of [a.csv]; staging holds it again,
    together with the new row of [b.csv] *)
Definition world_a_ab : Postgres.world :=
  {| Postgres.db :=
       {| Postgres.crimes_staging := [row_of "a.csv"; row_of "b.csv"];
          Postgres.crimes_prod := [Postgres.select_row (row_of "a.csv")] |};
     Postgres.log := []; Postgres.calls := []; Postgres.sessions := 0 |}.

(** a complete staging row on BigQuery *)
Definition bq_row (id : string) : BigQuery.Staging.row :=
  {| BigQuery.Staging.crime_id := Some id;
     BigQuery.Staging.month := Some "2023-07";
     BigQuery.Staging.falls_within := Some "Lancashire Constabulary";
     BigQuery.Staging.longitude := Some "-2.5";
     BigQuery.Staging.latitude := Some "53.8";
     BigQuery.Staging.lsoa_code := None;
     BigQuery.Staging.crime_type := Some "Burglary";
     BigQuery.Staging.location := Some "On or near High Street" |}.

(** the same row without a latitude *)
Definition bq_row_no_latitude (id : string) : BigQuery.Staging.row :=
  {| BigQuery.Staging.crime_id := Some id;
     BigQuery.Staging.month := Some "2023-07";
     BigQuery.Staging.falls_within := Some "Lancashire Constabulary";
     BigQuery.Staging.longitude := Some "-2.5";
     BigQuery.Staging.latitude := None;
     BigQuery.Staging.lsoa_code := None;
     BigQuery.Staging.crime_type := Some "Burglary";
     BigQuery.Staging.location := Some "On or near High Street" |}.

(** an empty production table and the given staging rows *)
Definition bq_dataset (rows : list BigQuery.Staging.row) : BigQuery.dataset :=
  {| BigQuery.staging := Some rows; BigQuery.production := [] |}.

(** the merge, run on the instance of the SQL functions, without a
    failure of the service and with an empty log *)
Definition bq_load (ds : BigQuery.dataset)
  : BigQuery.dataset * list log_entry * BigQuery.outcome :=
  BigQuery.load_staging_to_production
    BigQuery.parse_date_Ym BigQuery.st_geogpoint None ds [].

(** a staging row on BigQuery without a month *)
Definition bq_row_no_month (id : string) : BigQuery.Staging.row :=
  {| BigQuery.Staging.crime_id := Some id;
     BigQuery.Staging.month := None;
     BigQuery.Staging.falls_within := Some "Lancashire Constabulary";
     BigQuery.Staging.longitude := Some "-2.5";
     BigQuery.Staging.latitude := Some "53.8";
     BigQuery.Staging.lsoa_code := None;
     BigQuery.Staging.crime_type := Some "Burglary";
     BigQuery.Staging.location := Some "On or near High Street" |}.

(** the production row that row becomes *)
Definition bq_prod_no_month (id : string) : BigQuery.Production.row :=
  {| BigQuery.Production.crime_id := Some id;
     BigQuery.Production.month_year := None;
     BigQuery.Production.police_force := Some "Lancashire Constabulary";
     BigQuery.Production.longitude := Some "-2.5";
     BigQuery.Production.latitude := Some "53.8";
     BigQuery.Production.lsoa_code := None;
     BigQuery.Production.crime_type := Some "Burglary";
     BigQuery.Production.location_description := Some "On or near High Street";
     BigQuery.Production.geo_point := Some ("-2.5", "53.8") |}.

(** production holds that row already, and staging holds it again *)
Definition bq_dataset_no_month : BigQuery.dataset :=
  {| BigQuery.staging := Some [bq_row_no_month "c3"];
     BigQuery.production := [bq_prod_no_month "c3"] |}.

(** a dataset without a staging table *)
Definition bq_dataset_no_staging : BigQuery.dataset :=
  {| BigQuery.staging := None; BigQuery.production := [] |}.

End Examples.

(** ** The calendar the catalog steps through *)

Module Calendar.

Import Catalog.

(** the month numbered [k], counting twelve per year: the inverse of
    [months_of] on months 1..12 *)
Definition date_of_months (k : Z) : datetime :=
  mkdt ((k - 1) / 12) ((k - 1) mod 12 + 1).

(** the [n] consecutive months that start at [start] *)
Definition month_span (start : datetime) (n : nat) : list datetime :=
  map (fun i => date_of_months (months_of start + Z.of_nat i)) (seq 0 n).

(** the calendar successor of a month *)
Definition successor (d : datetime) : datetime :=
  if month d =? 12 then mkdt (year d + 1) 1 else mkdt (year d) (month d + 1).

(** the path of the file of month [d] below a directory [prefix]:
    [prefix/YYYY/MM.csv] *)
Definition partition_path (prefix : string) (d : datetime) : string :=
  PyStr.path_join (prefix ++ "/" ++ PyStr.zero_pad 4 (year d))
                  (PyStr.zero_pad 2 (month d) ++ ".csv").

End Calendar.

(** ** Characters of a string *)

Module Chars.

(** does the character [c] occur in [s]? *)
Fixpoint has_char (c : ascii) (s : string) : bool :=
  match s with
  | EmptyString => false
  | String x rest => Ascii.eqb x c || has_char c rest
  end.

End Chars.

(** ** The table the normaliser builds *)

Module NormalizerSpec.

Import Normalizer.

(** what [normalise_column] does to one character *)
Definition normalise_char (c : ascii) : ascii :=
  lower_char (if Ascii.eqb c " "%char then "_"%char else c).

(** the table with the canonical column names, before any row is dropped *)
Definition canonical (d : DataFrame) : DataFrame :=
  {| columns := RENAMED_COLUMNS;
     rows := rows (select_columns SELECT_COLS (renamed_input d)) |}.

(** the table handed back for the input [d]: the canonical table, the
    rows with a missing longitude, latitude or crime id dropped, and of
    rows that are equal the first one kept *)
Definition normalised (d : DataFrame) : DataFrame :=
  let d2 := canonical d in
  let d3 := where_ (fun r => notna (value d2 "longitude" r)
                             && notna (value d2 "latitude" r)) d2 in
  let d4 := where_ (fun r => notna (value d3 "crime_id" r)) d3 in
  drop_duplicates d4.

(** the required columns that the normalised names of [d] lack *)
Definition missing_columns (d : DataFrame) : list string :=
  filter (fun col => negb (PyStr.mem col (map normalise_column (columns d))))
         SELECT_COLS.

End NormalizerSpec.

(** ** What a run loads *)

Module Loaded.

Import Postgres.

(** the rows that the loads of [files] append to staging when no
    connection fails: those of the files that COPY accepts *)
Definition loaded_rows (env : environment) (files : list string)
  : list Staging.row :=
  flat_map (fun f => match csv_rows env f with
                     | inr rows => rows
                     | inl _ => []
                     end) files.

(** no connection fails and no constraint rejects a merge *)
Definition failure_free (env : environment) : Prop :=
  (forall n, session_fault env n = None)
  /\ (forall rows, prod_violation env rows = None).

(** the point of a production row is the one built from its own
    longitude and latitude *)
Definition point_derived (p : Production.row) : Prop :=
  Production.geo_point p
  = make_point (Production.longitude p) (Production.latitude p).

End Loaded.

(** ** Reorganising downloaded files: the paths of
    [clean_and_reorganise_data] (extract/common/file_manipulation.py) *)

Module Reorganise.

Import PyStr.

(** [year, month = year_month.split("-")]; [None] stands for the
    ValueError of an unpacking that does not find exactly two parts,
    after which the folder is skipped *)
Definition split_year_month (year_month : string) : option (string * string) :=
  match split "-"%char year_month with
  | [year; month] => Some (year, month)
  | _ => None
  end.

(** the region name cut out of a file name *)
Definition region_of (year_month region_file : string) : string :=
  replace ".csv" ""
    (replace "-street" "" (replace (year_month ++ "-") "" region_file)).

(** [os.path.join(output_folder, region, year)] *)
Definition new_region_folder (output_folder region year : string) : string :=
  path_join (path_join output_folder region) year.

(** the path a file of the folder [year_month] is written to; [None]
    when the folder is skipped *)
Definition new_region_file
  (output_folder year_month region_file : string) : option string :=
  match split_year_month year_month with
  | Some (year, month) =>
      let region := region_of year_month region_file in
      Some (path_join (new_region_folder output_folder region year)
                      (month ++ ".csv"))
  | None => None
  end.

End Reorganise.

(** ** Uploading to the bucket: [upload_file_to_gcs] (gcs/upload_data.py) *)

Module Gcs.

Import Py PyStr.

(** the bytes of a file or of a blob *)
Definition content := string.

(** the local file system, the bucket and the log *)
Record world := {
  local_files : string -> option content;
  bucket : string -> option content;
  log : list log_entry
}.

(** What a call does not control: [service_fault] is an exception of
    the client, the bucket or [blob.exists()], which nothing catches;
    [upload_fault] is an exception of the upload, which is caught. *)
Record faults := {
  service_fault : option string;
  upload_fault : option string
}.

Inductive outcome :=
| Returned (w : world)
| Raised (e : string) (w : world).

(** [os.path.join(local_folder, region, year, f"{month}.csv")] *)
Definition local_file_of (local_folder region year month : string) : string :=
  path_join (path_join (path_join local_folder region) year) (month ++ ".csv").

(** the name of the blob *)
Definition gcs_path_of (region year month : string) : string :=
  replace "\" "/"
    (path_join (path_join (path_join region ("year=" ++ year))
                          ("month=" ++ month))
               (month ++ ".csv")).

Definition add_log (entry : log_entry) (w : world) : world :=
  {| local_files := local_files w; bucket := bucket w;
     log := (log w ++ [entry])%list |}.

(** the blob [path] now holds [c] *)
Definition put (path : string) (c : content) (w : world) : world :=
  {| local_files := local_files w;
     bucket := fun p => if String.eqb p path then Some c else bucket w p;
     log := log w |}.

Definition is_some {A} (x : option A) : bool :=
  match x with Some _ => true | None => false end.

(** [upload_file_to_gcs] *)
Definition upload_file_to_gcs
  (f : faults) (region year month local_folder bucket_name : string)
  (skip_existing : bool) (w : world) : outcome :=
  let local_file := local_file_of local_folder region year month in
  match local_files w local_file with
  | None => Returned (add_log (WARNING, "File not found: " ++ local_file) w)
  | Some c =>
      let gcs_path := gcs_path_of region year month in
      match service_fault f with
      | Some e => Raised e w
      | None =>
          if skip_existing && is_some (bucket w gcs_path) then
            Returned (add_log (INFO, "Skipped existing file: gs://"
                                      ++ bucket_name ++ "/" ++ gcs_path) w)
          else
            match upload_fault f with
            | None =>
                Returned (add_log (INFO, "Uploaded " ++ local_file ++ " to gs://"
                                          ++ bucket_name ++ "/" ++ gcs_path)
                                  (put gcs_path c w))
            | Some e =>
                Returned (add_log (ERROR, "Error uploading " ++ local_file
                                           ++ " to gs://" ++ bucket_name ++ "/"
                                           ++ gcs_path ++ ": " ++ e) w)
            end
      end
  end.

(** the world a call leaves, whether it returned or raised *)
Definition world_of (o : outcome) : world :=
  match o with Returned w => w | Raised _ w => w end.

End Gcs.

(** ** Reading the download configuration: [extract_json_file]
    (extract/common/file_manipulation.py) *)

Module Config.

(** A value as [json.load] builds it.  Numbers are the integers: the
    function only ever tests a number for being zero.  A dict is the
    list of its items, with one item per key. *)
#[warnings="-register-all"]
Inductive json :=
| JNull
| JBool (b : bool)
| JInt (n : Z)
| JStr (s : string)
| JList (l : list json)
| JDict (items : list (string * json)).

(** what [open] and [json.load] make of the path *)
Inductive source :=
| NoSuchFile
| Unreadable              (* any other exception of [open] *)
| NotJson
| Loaded (data : json).

(** the except clause that logs, after which [None] is returned *)
Inductive failure :=
| FileNotFoundError
| JSONDecodeError
| KeyError
| OtherException.          (* AttributeError, TypeError *)

Fixpoint lookup (key : string) (items : list (string * json)) : option json :=
  match items with
  | [] => None
  | (k, v) :: rest => if String.eqb k key then Some v else lookup key rest
  end.

(** [v.get(key, default)]; only a dict has [get] *)
Definition get (v : json) (key : string) (default : json) : failure + json :=
  match v with
  | JDict items =>
      inr (match lookup key items with Some x => x | None => default end)
  | _ => inl OtherException
  end.

(** [v[key]] on a dict *)
Definition item (v : json) (key : string) : failure + json :=
  match v with
  | JDict items =>
      match lookup key items with Some x => inr x | None => inl KeyError end
  | JList _ | JStr _ => inl OtherException      (* indices must be integers *)
  | _ => inl OtherException                     (* not subscriptable *)
  end.

(** the truth value of a value in a condition *)
Definition truthy (v : json) : bool :=
  match v with
  | JNull => false
  | JBool b => b
  | JInt n => negb (n =? 0)
  | JStr s => negb (String.eqb s "")
  | JList l => match l with [] => false | _ => true end
  | JDict items => match items with [] => false | _ => true end
  end.

(** the values a [for] loop runs through *)
Definition iterate (v : json) : failure + list json :=
  match v with
  | JList l => inr l
  | JDict items => inr (map (fun kv => JStr (fst kv)) items)
  | JStr s => inr (map (fun c => JStr (String c "")) (list_ascii_of_string s))
  | _ => inl OtherException
  end.

(** [[force['id'] for force in forces if force.get('active', False)]]:
    the condition is evaluated first, the id is read of active forces
    only, and the first exception ends the comprehension *)
Fixpoint active_ids (forces : list json) : failure + list json :=
  match forces with
  | [] => inr []
  | force :: rest =>
      match get force "active" (JBool false) with
      | inl e => inl e
      | inr active =>
          if truthy active then
            match item force "id" with
            | inl e => inl e
            | inr id =>
                match active_ids rest with
                | inl e => inl e
                | inr ids => inr (id :: ids)
                end
            end
          else active_ids rest
      end
  end.

Definition is_none (v : json) : bool :=
  match v with JNull => true | _ => false end.

(** the body of the try block *)
Definition read_config (data : json) : failure + ((json * json) * list json) :=
  match get data "forces" (JList []) with
  | inl e => inl e
  | inr forces =>
      match iterate forces with
      | inl e => inl e
      | inr l =>
          match active_ids l with
          | inl e => inl e
          | inr ids =>
              match get data "dates" (JDict []) with
              | inl e => inl e
              | inr dates =>
                  match get dates "start_date" JNull with
                  | inl e => inl e
                  | inr start_date =>
                      match get dates "end_date" JNull with
                      | inl e => inl e
                      | inr end_date =>
                          if is_none start_date || is_none end_date
                          then inl KeyError
                          else inr ((start_date, end_date), ids)
                      end
                  end
              end
          end
      end
  end.

(** [extract_json_file]: the value returned ([None] after an exception)
    and the except clause that logged, if any *)
Definition extract_json_file (src : source)
  : option ((json * json) * list json) * option failure :=
  match src with
  | NoSuchFile => (None, Some FileNotFoundError)
  | Unreadable => (None, Some OtherException)
  | NotJson => (None, Some JSONDecodeError)
  | Loaded data =>
      match read_config data with
      | inr r => (Some r, None)
      | inl e => (None, Some e)
      end
  end.

(** a force as the configuration file lists it *)
Definition force_entry (id : string) (active : bool) : json :=
  JDict [("id", JStr id); ("active", JBool active)].

(** a configuration file with its two dates and its forces *)
Definition config_file (start_date end_date : string) (forces : list json) : json :=
  JDict [("dates", JDict [("start_date", JStr start_date);
                          ("end_date", JStr end_date)]);
         ("forces", JList forces)].

End Config.

(** * Properties *)

(** ** Lists, options and strings *)

Module Basics.

Import PyStr.

Lemma Some_eq {A} (a b : A) : Some a = Some b -> a = b.
Proof. congruence. Qed.

Lemma filter_none {A} (f : A -> bool) l :
  (forall x, In x l -> f x = false) -> filter f l = [].
Proof.
  induction l as [|x l IH]; intros H; [reflexivity|].
  simpl. rewrite (H x (or_introl eq_refl)). apply IH.
  intros y Hy. apply H. right. exact Hy.
Qed.

Lemma mem_In x l : mem x l = true <-> In x l.
Proof.
  unfold mem. rewrite existsb_exists. split.
  - intros (y & Hy & E). apply String.eqb_eq in E. subst. exact Hy.
  - intros H. exists x. split; [exact H|apply String.eqb_refl].
Qed.

End Basics.

(** ** Partition Catalog *)

Module CatalogProps.

Import PyStr Catalog Basics.

(** replace the digit values by variables before arithmetic *)
Ltac forget_digits :=
  repeat match goal with
         | H : context [digit_val ?c] |- _ =>
             let v := fresh "v" in
             remember (digit_val c) as v in *;
             match goal with E : v = digit_val c |- _ => clear E end
         end.

Lemma is_digit_bound c : is_digit c = true -> 0 <= digit_val c <= 9.
Proof.
  unfold is_digit, digit_val. intros H.
  apply andb_true_iff in H. destruct H as [H1 H2].
  apply Z.leb_le in H1. apply Z.leb_le in H2. lia.
Qed.

Lemma parse_month_range s m : parse_month s = Some m -> 1 <= m <= 12.
Proof.
  unfold parse_month.
  destruct s as [|a [|b [|c r]]]; try discriminate.
  - destruct (is_digit a) eqn:Da; cbn [andb]; try discriminate.
    destruct (1 <=? digit_val a) eqn:L; try discriminate.
    intros E. apply Some_eq in E. subst m.
    apply Z.leb_le in L. apply is_digit_bound in Da.
    forget_digits. lia.
  - destruct (is_digit a && is_digit b); try discriminate.
    destruct ((1 <=? 10 * digit_val a + digit_val b)
              && (10 * digit_val a + digit_val b <=? 12)) eqn:L; try discriminate.
    intros E. apply Some_eq in E. subst m.
    apply andb_true_iff in L. destruct L as [L1 L2].
    apply Z.leb_le in L1. apply Z.leb_le in L2. forget_digits. lia.
Qed.

Lemma strptime_valid s d : strptime_Ym s = Some d -> valid d.
Proof.
  unfold strptime_Ym.
  destruct s as [|a [|b [|c [|e [|dash rest]]]]]; try discriminate.
  destruct (is_digit a) eqn:Da; cbn [andb]; try discriminate.
  destruct (is_digit b) eqn:Db; cbn [andb]; try discriminate.
  destruct (is_digit c) eqn:Dc; cbn [andb]; try discriminate.
  destruct (is_digit e) eqn:De; cbn [andb]; try discriminate.
  destruct (Ascii.eqb dash "-"); try discriminate.
  destruct (parse_month rest) as [m|] eqn:Pm; try discriminate.
  destruct (MINYEAR <=? _) eqn:Ly; try discriminate.
  intros E. apply Some_eq in E. subst d. apply Z.leb_le in Ly.
  apply parse_month_range in Pm.
  apply is_digit_bound in Da, Db, Dc, De.
  unfold valid, MAXYEAR, MINYEAR in *; cbn [year month]. forget_digits. lia.
Qed.

Lemma dt_leb_months a b :
  1 <= month a <= 12 -> 1 <= month b <= 12 ->
  dt_leb a b = true <-> months_of a <= months_of b.
Proof.
  intros Ha Hb. unfold dt_leb, months_of.
  rewrite orb_true_iff, andb_true_iff, Z.ltb_lt, Z.eqb_eq, Z.leb_le. lia.
Qed.

Lemma months_of_inj a b :
  1 <= month a <= 12 -> 1 <= month b <= 12 ->
  months_of a = months_of b -> a = b.
Proof.
  destruct a as [ya ma], b as [yb mb]; unfold months_of; cbn [year month].
  intros Ha Hb H. f_equal; lia.
Qed.

Lemma next_month_step d :
  valid d -> months_of d < months_of last_month ->
  exists n, next_month_of d = Some n /\ valid n
            /\ months_of n = months_of d + 1.
Proof.
  destruct d as [y m]. unfold valid, months_of, last_month, next_month_of.
  unfold MINYEAR, MAXYEAR. cbn [year month]. intros [Hm Hy] Hlt.
  destruct (Z.eq_dec m 12) as [->|Hne].
  - change ((12 + 1) / 13) with 1. change ((12 + 1) mod 12) with 1.
    unfold int_or, dt_replace, MINYEAR, MAXYEAR. cbn [Z.eqb].
    replace (1 <=? y + 1) with true by (symmetry; apply Z.leb_le; lia).
    replace (y + 1 <=? 9999) with true by (symmetry; apply Z.leb_le; lia).
    cbn [andb Z.leb Z.compare]. eexists; split; [reflexivity|]. cbn [year month]. lia.
  - rewrite (Z.div_small (m + 1) 13) by lia.
    assert (Hor : int_or ((m + 1) mod 12) 12 = m + 1).
    { unfold int_or. destruct (Z.eq_dec m 11) as [->|Hne'].
      - reflexivity.
      - rewrite Z.mod_small by lia.
        destruct (m + 1 =? 0) eqn:E; [apply Z.eqb_eq in E; lia | reflexivity]. }
    rewrite Hor. unfold dt_replace, MINYEAR, MAXYEAR.
    replace (1 <=? y + 0) with true by (symmetry; apply Z.leb_le; lia).
    replace (y + 0 <=? 9999) with true by (symmetry; apply Z.leb_le; lia).
    replace (1 <=? m + 1) with true by (symmetry; apply Z.leb_le; lia).
    replace (m + 1 <=? 12) with true by (symmetry; apply Z.leb_le; lia).
    cbn [andb Z.leb Z.compare]. eexists; split; [reflexivity|]. cbn [year month]. lia.
Qed.

(** once [current] is past [end_] the loop stops, whatever the fuel *)
Lemma month_loop_stops fuel cur e acc :
  valid cur -> 1 <= month e <= 12 -> dt_leb cur e = false ->
  exists l, month_loop fuel cur e acc = Finished (acc ++ l)%list /\
    forall s, In s l <->
      exists d, 1 <= month d <= 12
                /\ months_of cur <= months_of d <= months_of e
                /\ s = strftime_Ym d.
Proof.
  intros Hc He Hle. exists []. split.
  - destruct fuel; simpl; rewrite Hle, app_nil_r; reflexivity.
  - intros s; split; [intros []|].
    intros (d & Hd & Hr & _).
    assert (dt_leb cur e = true) by (apply dt_leb_months; [apply Hc|exact He|lia]).
    congruence.
Qed.

(** The while loop terminates within [fuel] iterations and appends exactly
    the renderings of the months from [cur] to [e]. *)
Lemma month_loop_finishes fuel : forall cur e acc,
  valid cur -> 1 <= month e <= 12 ->
  months_of e < months_of last_month ->
  (months_of cur <= months_of e ->
   (Z.to_nat (months_of e - months_of cur) < fuel)%nat) ->
  exists l, month_loop fuel cur e acc = Finished (acc ++ l)%list /\
    forall s, In s l <->
      exists d, 1 <= month d <= 12
                /\ months_of cur <= months_of d <= months_of e
                /\ s = strftime_Ym d.
Proof.
  induction fuel as [|fuel IH]; intros cur e acc Hc He Hlast Hfuel.
  { destruct (dt_leb cur e) eqn:Hle; [|apply month_loop_stops; assumption].
    apply dt_leb_months in Hle; [|apply Hc|exact He]. specialize (Hfuel Hle). lia. }
  destruct (dt_leb cur e) eqn:Hle; [|apply month_loop_stops; assumption].
  simpl. rewrite Hle.
  - apply dt_leb_months in Hle; [|apply Hc|exact He]. specialize (Hfuel Hle).
    destruct (@next_month_step cur Hc) as (n & Hn & Hvn & Hmn); [lia|].
    rewrite Hn.
    destruct (IH n e (acc ++ [strftime_Ym cur])%list Hvn He Hlast) as (l & Hl & Hin);
      [lia|].
    exists (strftime_Ym cur :: l). split.
    + rewrite Hl, <- app_assoc. reflexivity.
    + intros s. simpl. rewrite Hin. split.
      * intros [<-|(d & Hd & Hr & ->)].
        -- exists cur. split; [apply Hc|]. split; [lia|reflexivity].
        -- exists d. split; [exact Hd|]. split; [lia|reflexivity].
      * intros (d & Hd & Hr & ->).
        destruct (Z.eq_dec (months_of d) (months_of cur)) as [E|NE].
        -- left. f_equal. symmetry. apply months_of_inj; [exact Hd|apply Hc|exact E].
        -- right. exists d. split; [exact Hd|]. split; [lia|reflexivity].
Qed.

(** the date range of a window that is empty or ends before [last_month] *)
Lemma build_date_range_spec start end_ :
  valid start -> valid end_ ->
  dt_leb start end_ = false \/ end_ <> last_month ->
  exists date_range, build_date_range start end_ = Finished date_range /\
    forall s, In s date_range <->
      exists d, in_window start end_ d /\ s = strftime_Ym d.
Proof.
  intros Hs He Hw. unfold build_date_range.
  destruct (dt_leb start end_) eqn:Hle.
  - assert (Hlast : months_of end_ < months_of last_month).
    { destruct Hw as [Hw|Hw]; [discriminate|].
      destruct (Z.eq_dec (months_of end_) (months_of last_month)) as [E|NE].
      - exfalso. apply Hw.
        apply months_of_inj; [apply He|cbn [last_month month]; lia|exact E].
      - destruct end_ as [y m]. unfold valid, months_of, last_month, MAXYEAR in *.
        cbn [year month] in *. lia. }
    destruct (@month_loop_finishes (loop_fuel start end_) start end_ [] Hs)
      as (l & Hl & Hin); [apply He|exact Hlast|unfold loop_fuel; lia|].
    exists l. split; [exact Hl|].
    intros s. rewrite Hin. split.
    + intros (d & Hd & Hr & ->). exists d. split; [|reflexivity].
      split; [exact Hd|].
      split; apply dt_leb_months; try exact Hd; try apply Hs; try apply He; lia.
    + intros (d & (Hd & H1 & H2) & ->). exists d. split; [exact Hd|].
      apply dt_leb_months in H1; [|apply Hs|exact Hd].
      apply dt_leb_months in H2; [|exact Hd|apply He].
      split; [lia|reflexivity].
  - exists []. split.
    + unfold loop_fuel. simpl. rewrite Hle. reflexivity.
    + intros s; split; [intros []|].
      intros (d & (Hd & H1 & H2) & _).
      apply dt_leb_months in H1; [|apply Hs|exact Hd].
      apply dt_leb_months in H2; [|exact Hd|apply He].
      assert (dt_leb start end_ = true)
        by (apply dt_leb_months; [apply Hs|apply He|lia]).
      congruence.
Qed.

(** the selection of the catalog: for an existing root directory and a
    parseable window that is empty or does not end at 9999-12, the
    function returns, in walk order, exactly the walked .csv paths whose
    year directory and month file name are the "%Y-%m" rendering of a
    month [d] with start <= d <= end; every other path is skipped without
    an error. *)
Theorem extract_relevant_csv_files_window
  fs data_folder start_date end_date start end_ :
  path_exists fs data_folder = true ->
  strptime_Ym start_date = Some start ->
  strptime_Ym end_date = Some end_ ->
  dt_leb start end_ = false \/ end_ <> last_month ->
  exists sel,
    extract_relevant_csv_files fs data_folder start_date end_date
      = Ok (filter sel (walked_csv_paths fs data_folder))
    /\ forall p, sel p = true <->
         exists d, in_window start end_ d
                   /\ month_year_of p = Some (strftime_Ym d).
Proof.
  intros Hex Hs He Hw.
  destruct (@build_date_range_spec start end_) as (date_range & Hdr & Hin);
    [eapply strptime_valid; eassumption
    |eapply strptime_valid; eassumption
    |exact Hw|].
  exists (selected date_range). split.
  - unfold extract_relevant_csv_files. rewrite Hex, Hs, He, Hdr. reflexivity.
  - intros p. unfold selected.
    destruct (month_year_of p) as [my|].
    + rewrite mem_In, Hin. split.
      * intros (d & Hd & ->). exists d. split; [exact Hd|reflexivity].
      * intros (d & Hd & E). apply Some_eq in E. exists d. split; assumption.
    + split; [discriminate|]. intros (d & _ & E). discriminate.
Qed.

(** the partition-selection property of the specification's test list:
    window 2023-07..2023-09 over 2023/07 .. 2023/10 and 2022/07 *)
Lemma extract_relevant_csv_files_window_2023 :
  extract_relevant_csv_files Examples.fs_2023 "data" "2023-07" "2023-09"
    = Ok ["data/lancashire/2023/07.csv"; "data/lancashire/2023/08.csv";
          "data/lancashire/2023/09.csv"]
  /\ exists sel,
       extract_relevant_csv_files Examples.fs_2023 "data" "2023-07" "2023-09"
         = Ok (filter sel (walked_csv_paths Examples.fs_2023 "data"))
       /\ forall p, sel p = true <->
            exists d, in_window (mkdt 2023 7) (mkdt 2023 9) d
                      /\ month_year_of p = Some (strftime_Ym d).
Proof.
  split; [reflexivity|].
  apply (@extract_relevant_csv_files_window
           Examples.fs_2023 "data" "2023-07" "2023-09" (mkdt 2023 7) (mkdt 2023 9)).
  - reflexivity.
  - reflexivity.
  - reflexivity.
  - right. discriminate.
Defined.

(** C6, on the code: for the window 9999-12..9999-12 over an existing
    folder that holds the file of that month, both dates parse and the
    loop collects the month, but it then steps past the last month a
    datetime can hold: [replace(year=10000)] raises ValueError outside
    every try block and no list is returned, where the docstring promises
    the list and a ValueError only for a date of the wrong format. *)
Theorem extract_relevant_csv_files_raises_at_9999_12 :
  path_exists Examples.fs_9999 "data" = true
  /\ strptime_Ym "9999-12" = Some last_month
  /\ extract_relevant_csv_files Examples.fs_9999 "data" "9999-12" "9999-12"
     = Err ValueError_range.
Proof. repeat split. Qed.

(** *** The month loop, month by month *)

Import Calendar.

Lemma valid_before_last d :
  valid d -> d <> last_month -> months_of d < months_of last_month.
Proof.
  intros Hv Hne.
  destruct (Z.eq_dec (months_of d) (months_of last_month)) as [E|NE].
  - exfalso. apply Hne.
    apply months_of_inj; [apply Hv|cbn [last_month month]; lia|exact E].
  - destruct d as [y m]. unfold valid, months_of, last_month, MAXYEAR in *.
    cbn [year month] in *. lia.
Qed.

(** X1: the step at the bottom of the loop yields the calendar successor
    of every month a datetime can hold, the last one excepted: the next
    month of the same year, or January of the next year after December. *)
Theorem next_month_of_is_successor d :
  valid d -> d <> last_month -> next_month_of d = Some (successor d).
Proof.
  intros Hv Hne.
  destruct (@next_month_step d Hv (valid_before_last Hv Hne))
    as (n & Hn & Hvn & Hm).
  rewrite Hn. f_equal. apply months_of_inj.
  - apply Hvn.
  - unfold successor. destruct (month d =? 12) eqn:E; cbn [month]; [lia|].
    apply Z.eqb_neq in E. destruct Hv as [Hv _]. lia.
  - rewrite Hm. unfold successor, months_of.
    destruct (month d =? 12) eqn:E; cbn [year month].
    + apply Z.eqb_eq in E. lia.
    + lia.
Qed.

Lemma next_month_of_is_successor_example :
  next_month_of (mkdt 2022 12) = Some (mkdt 2023 1).
Proof.
  apply (@next_month_of_is_successor (mkdt 2022 12)).
  - unfold valid, MINYEAR, MAXYEAR. cbn [year month]. lia.
  - discriminate.
Defined.

Lemma date_of_months_of d :
  1 <= month d <= 12 -> date_of_months (months_of d) = d.
Proof.
  destruct d as [y m]. unfold date_of_months, months_of. cbn [year month].
  intros Hm. f_equal.
  - replace (12 * y + m - 1) with ((m - 1) + y * 12) by lia.
    rewrite Z.div_add by lia. rewrite Z.div_small by lia. lia.
  - replace (12 * y + m - 1) with ((m - 1) + y * 12) by lia.
    rewrite Z.mod_add by lia. rewrite Z.mod_small by lia. lia.
Qed.

Lemma month_span_S start n next :
  1 <= month start <= 12 ->
  months_of next = months_of start + 1 ->
  month_span start (S n) = start :: month_span next n.
Proof.
  intros Hm Hn. unfold month_span. cbn [seq map].
  rewrite Z.add_0_r, date_of_months_of by exact Hm. f_equal.
  rewrite <- seq_shift, map_map. apply map_ext. intros i.
  rewrite Hn. f_equal. lia.
Qed.

(** the loop appends the renderings of the consecutive months from
    [cur] to [e], and nothing else *)
Lemma month_loop_span fuel : forall cur e acc,
  valid cur -> 1 <= month e <= 12 ->
  months_of e < months_of last_month ->
  (months_of cur <= months_of e ->
   (Z.to_nat (months_of e - months_of cur) < fuel)%nat) ->
  month_loop fuel cur e acc
  = Finished (acc ++ map strftime_Ym
                       (month_span cur (Z.to_nat (months_of e - months_of cur + 1))))%list.
Proof.
  induction fuel as [|fuel IH]; intros cur e acc Hc He Hlast Hfuel.
  - destruct (dt_leb cur e) eqn:Hle.
    + apply dt_leb_months in Hle; [|apply Hc|exact He]. specialize (Hfuel Hle). lia.
    + simpl. rewrite Hle.
      assert (Hgt : months_of e < months_of cur).
      { destruct (Z.lt_ge_cases (months_of e) (months_of cur)) as [H|H]; [exact H|].
        assert (dt_leb cur e = true)
          by (apply dt_leb_months; [apply Hc|exact He|lia]). congruence. }
      replace (Z.to_nat (months_of e - months_of cur + 1)) with 0%nat by lia.
      simpl. rewrite app_nil_r. reflexivity.
  - destruct (dt_leb cur e) eqn:Hle.
    + simpl. rewrite Hle.
      apply dt_leb_months in Hle; [|apply Hc|exact He]. specialize (Hfuel Hle).
      destruct (@next_month_step cur Hc) as (n & Hn & Hvn & Hmn); [lia|].
      rewrite Hn. rewrite (IH n e _ Hvn He Hlast) by lia.
      replace (Z.to_nat (months_of e - months_of cur + 1))
        with (S (Z.to_nat (months_of e - months_of n + 1))) by lia.
      rewrite (@month_span_S cur _ n); [|apply Hc|exact Hmn].
      rewrite <- app_assoc. reflexivity.
    + simpl. rewrite Hle.
      assert (Hgt : months_of e < months_of cur).
      { destruct (Z.lt_ge_cases (months_of e) (months_of cur)) as [H|H]; [exact H|].
        assert (dt_leb cur e = true)
          by (apply dt_leb_months; [apply Hc|exact He|lia]). congruence. }
      replace (Z.to_nat (months_of e - months_of cur + 1)) with 0%nat by lia.
      simpl. rewrite app_nil_r. reflexivity.
Qed.

(** X2: for a window whose end is not 9999-12, the date range is the
    list of the renderings of the consecutive months from the start to
    the end, in order: one entry per month, 12 * (years apart) + (months
    apart) + 1 of them, none when the start is after the end. *)
Theorem build_date_range_consecutive_months start end_ :
  valid start -> valid end_ -> end_ <> last_month ->
  build_date_range start end_
  = Finished (map strftime_Ym
                (month_span start
                   (Z.to_nat (months_of end_ - months_of start + 1)))).
Proof.
  intros Hs He Hne. unfold build_date_range.
  rewrite (@month_loop_span (loop_fuel start end_) start end_ [] Hs).
  - reflexivity.
  - apply He.
  - apply valid_before_last; assumption.
  - intros _. unfold loop_fuel. lia.
Qed.

Lemma build_date_range_consecutive_months_example :
  build_date_range (mkdt 2022 11) (mkdt 2023 2)
  = Finished ["2022-11"; "2022-12"; "2023-01"; "2023-02"]
  /\ build_date_range (mkdt 999 11) (mkdt 1000 2)
     = Finished ["999-11"; "999-12"; "1000-01"; "1000-02"].
Proof.
  split.
  - rewrite (@build_date_range_consecutive_months (mkdt 2022 11) (mkdt 2023 2)).
    + reflexivity.
    + unfold valid, MINYEAR, MAXYEAR. cbn [year month]. lia.
    + unfold valid, MINYEAR, MAXYEAR. cbn [year month]. lia.
    + discriminate.
  - rewrite (@build_date_range_consecutive_months (mkdt 999 11) (mkdt 1000 2)).
    + reflexivity.
    + unfold valid, MINYEAR, MAXYEAR. cbn [year month]. lia.
    + unfold valid, MINYEAR, MAXYEAR. cbn [year month]. lia.
    + discriminate.
Defined.

(** the loop raises when it reaches the last month *)
Lemma month_loop_raises fuel : forall cur acc,
  valid cur ->
  (Z.to_nat (months_of last_month - months_of cur) < fuel)%nat ->
  month_loop fuel cur last_month acc = Raised ValueError_range.
Proof.
  induction fuel as [|fuel IH]; intros cur acc Hc Hfuel; [lia|].
  assert (Hle : dt_leb cur last_month = true).
  { apply dt_leb_months; [apply Hc|cbn [last_month month]; lia|].
    destruct cur as [y m]. unfold valid, months_of, last_month, MAXYEAR in *.
    cbn [year month] in *. lia. }
  simpl. rewrite Hle.
  destruct (Z.eq_dec (months_of cur) (months_of last_month)) as [E|NE].
  - assert (cur = last_month)
      by (apply months_of_inj; [apply Hc|cbn [last_month month]; lia|exact E]).
    subst cur. reflexivity.
  - assert (Hlt : months_of cur < months_of last_month).
    { apply dt_leb_months in Hle; [lia|apply Hc|cbn [last_month month]; lia]. }
    destruct (@next_month_step cur Hc Hlt) as (n & Hn & Hvn & Hmn).
    rewrite Hn. apply IH; [exact Hvn|lia].
Qed.

(** X3: every window that ends at 9999-12, whatever its start, makes the
    function raise the ValueError of [datetime.replace] instead of
    returning a list, even when the folder holds no file at all. *)
Theorem extract_relevant_csv_files_raises_when_end_is_last_month
  fs data_folder start_date end_date start :
  path_exists fs data_folder = true ->
  strptime_Ym start_date = Some start ->
  strptime_Ym end_date = Some last_month ->
  extract_relevant_csv_files fs data_folder start_date end_date
  = Err ValueError_range.
Proof.
  intros Hex Hs He. unfold extract_relevant_csv_files, build_date_range.
  rewrite Hex, Hs, He. cbn [negb].
  rewrite month_loop_raises; [reflexivity| |unfold loop_fuel; lia].
  eapply strptime_valid. exact Hs.
Qed.

Lemma extract_relevant_csv_files_raises_when_end_is_last_month_example :
  extract_relevant_csv_files Examples.fs_2023 "data" "2023-07" "9999-12"
  = Err ValueError_range.
Proof.
  apply (@extract_relevant_csv_files_raises_when_end_is_last_month
           Examples.fs_2023 "data" "2023-07" "9999-12" (mkdt 2023 7));
    reflexivity.
Defined.

(** *** Rendering and parsing a month *)

Import Chars.

Lemma digit_char_spec k :
  is_digit (digit_char k) = true /\ digit_val (digit_char k) = k mod 10.
Proof.
  unfold digit_char.
  assert (Hr : 0 <= k mod 10 < 10) by (apply Z.mod_pos_bound; lia).
  remember (k mod 10) as r eqn:Er. clear Er.
  assert (Hc : r = 0 \/ r = 1 \/ r = 2 \/ r = 3 \/ r = 4 \/ r = 5 \/ r = 6
               \/ r = 7 \/ r = 8 \/ r = 9) by lia.
  repeat (destruct Hc as [->|Hc]; [split; reflexivity|]).
  subst r. split; reflexivity.
Qed.

Lemma year_text_four y : 1000 <= y -> year_text y = zero_pad 4 y.
Proof.
  intros H. unfold year_text.
  replace (y <? 10) with false by (symmetry; apply Z.ltb_ge; lia).
  replace (y <? 100) with false by (symmetry; apply Z.ltb_ge; lia).
  replace (y <? 1000) with false by (symmetry; apply Z.ltb_ge; lia).
  reflexivity.
Qed.

Lemma strptime_strftime_valid d :
  valid d -> 1000 <= year d -> strptime_Ym (strftime_Ym d) = Some d.
Proof.
  destruct d as [y m]. unfold valid, MINYEAR, MAXYEAR. cbn [year month].
  intros [Hm Hy] H4.
  unfold strftime_Ym, strptime_Ym. cbn [year month]. rewrite (year_text_four H4).
  cbn [zero_pad append].
  destruct (digit_char_spec (y / 10 / 10 / 10)) as [D3 V3].
  destruct (digit_char_spec (y / 10 / 10)) as [D2 V2].
  destruct (digit_char_spec (y / 10)) as [D1 V1].
  destruct (digit_char_spec y) as [D0 V0].
  rewrite D3, D2, D1, D0, V3, V2, V1, V0. cbn [andb Ascii.eqb Bool.eqb].
  unfold parse_month.
  destruct (digit_char_spec (m / 10)) as [E1 W1].
  destruct (digit_char_spec m) as [E0 W0].
  rewrite E1, E0, W1, W0. cbn [andb].
  assert (Hmv : 10 * ((m / 10) mod 10) + m mod 10 = m).
  { rewrite (Z.mod_small (m / 10)).
    - pose proof (Z.div_mod m 10). lia.
    - split; [apply Z.div_pos; lia|]. apply Z.div_lt_upper_bound; lia. }
  rewrite Hmv.
  replace (1 <=? m) with true by (symmetry; apply Z.leb_le; lia).
  replace (m <=? 12) with true by (symmetry; apply Z.leb_le; lia).
  cbn [andb].
  assert (Hyv : 1000 * ((y / 10 / 10 / 10) mod 10) + 100 * ((y / 10 / 10) mod 10)
                + 10 * ((y / 10) mod 10) + y mod 10 = y).
  { pose proof (Z.div_mod y 10).
    pose proof (Z.div_mod (y / 10) 10).
    pose proof (Z.div_mod (y / 10 / 10) 10).
    pose proof (Z.mod_pos_bound y 10).
    pose proof (Z.mod_pos_bound (y / 10) 10).
    pose proof (Z.mod_pos_bound (y / 10 / 10) 10).
    assert (0 <= y / 10 / 10 / 10 < 10).
    { split.
      - repeat apply Z.div_pos; lia.
      - rewrite !Z.div_div by lia. apply Z.div_lt_upper_bound; lia. }
    rewrite (Z.mod_small (y / 10 / 10 / 10)) by assumption.
    pose proof (Z.div_mod (y / 10 / 10) 10). lia. }
  rewrite Hyv.
  unfold MINYEAR.
  replace (1 <=? y) with true by (symmetry; apply Z.leb_le; lia).
  reflexivity.
Qed.

(** a year below 1000 is rendered on fewer than four digits, which
    "%Y" does not parse *)
Lemma strptime_strftime_short d :
  valid d -> year d < 1000 -> strptime_Ym (strftime_Ym d) = None.
Proof.
  destruct d as [y m]. unfold valid, MINYEAR, MAXYEAR. cbn [year month].
  intros [Hm Hy] H3.
  unfold strftime_Ym, strptime_Ym, year_text. cbn [year month].
  destruct (y <? 10) eqn:L1; [cbn [zero_pad append]; reflexivity|].
  destruct (y <? 100) eqn:L2.
  { cbn [zero_pad append].
    destruct (is_digit (digit_char (y / 10))), (is_digit (digit_char y));
      reflexivity. }
  replace (y <? 1000) with true by (symmetry; apply Z.ltb_lt; lia).
  cbn [zero_pad append].
  destruct (is_digit (digit_char (y / 10 / 10))),
    (is_digit (digit_char (y / 10))), (is_digit (digit_char y)); reflexivity.
Qed.

(** X4: rendering a month with "%Y-%m" and parsing the text back gives
    the month again exactly for the years on four digits: for a year
    from 1000 on the month is read back, and for a year below 1000 the
    rendering has fewer than four digits and does not parse. *)
Theorem strptime_strftime_round_trip d :
  valid d ->
  (1000 <= year d -> strptime_Ym (strftime_Ym d) = Some d)
  /\ (year d < 1000 -> strptime_Ym (strftime_Ym d) = None).
Proof.
  intros Hv. split.
  - apply strptime_strftime_valid. exact Hv.
  - apply strptime_strftime_short. exact Hv.
Qed.

Lemma strptime_strftime_round_trip_example :
  strptime_Ym (strftime_Ym (mkdt 2023 7)) = Some (mkdt 2023 7)
  /\ strftime_Ym (mkdt 987 3) = "987-03"
  /\ strptime_Ym (strftime_Ym (mkdt 987 3)) = None.
Proof.
  destruct (@strptime_strftime_round_trip (mkdt 2023 7)) as [H1 _].
  { unfold valid, MINYEAR, MAXYEAR. cbn [year month]. lia. }
  destruct (@strptime_strftime_round_trip (mkdt 987 3)) as [_ H2].
  { unfold valid, MINYEAR, MAXYEAR. cbn [year month]. lia. }
  split; [apply H1; cbn [year]; lia|].
  split; [reflexivity|apply H2; cbn [year]; lia].
Defined.

Lemma digit_val_char k : digit_val (digit_char k) = k mod 10.
Proof. apply digit_char_spec. Qed.

Lemma is_digit_char k : is_digit (digit_char k) = true.
Proof. apply digit_char_spec. Qed.

(** take an equation between two rendered texts apart, character by
    character; a digit is never the dash *)
Ltac string_eq_digits :=
  repeat match goal with
         | H : String _ _ = String _ _ |- _ => inversion H; clear H
         | H : String _ _ = EmptyString |- _ => discriminate H
         | H : EmptyString = String _ _ |- _ => discriminate H
         | H : digit_char _ = "-"%char |- _ =>
             apply (f_equal is_digit) in H; rewrite is_digit_char in H;
             discriminate H
         | H : "-"%char = digit_char _ |- _ =>
             apply (f_equal is_digit) in H; rewrite is_digit_char in H;
             discriminate H
         | H : digit_char _ = digit_char _ |- _ =>
             apply (f_equal digit_val) in H; rewrite !digit_val_char in H
         end.

Lemma strftime_inj a b :
  valid a -> valid b -> strftime_Ym a = strftime_Ym b -> a = b.
Proof.
  destruct a as [ya ma], b as [yb mb].
  unfold valid, MINYEAR, MAXYEAR, strftime_Ym, year_text. cbn [year month].
  intros [Hma Hya] [Hmb Hyb].
  destruct (ya <? 10) eqn:A1;
    [|destruct (ya <? 100) eqn:A2; [|destruct (ya <? 1000) eqn:A3]];
    (destruct (yb <? 10) eqn:B1;
     [|destruct (yb <? 100) eqn:B2; [|destruct (yb <? 1000) eqn:B3]]);
    cbn [zero_pad append]; intros E; string_eq_digits;
    repeat match goal with
           | H : (_ <? _) = true |- _ => apply Z.ltb_lt in H
           | H : (_ <? _) = false |- _ => apply Z.ltb_ge in H
           end;
    f_equal; Z.div_mod_to_equations; lia.
Qed.

(** *** Paths *)

Lemma split_nonempty sep s : split sep s <> [].
Proof.
  destruct s as [|c s]; simpl; [discriminate|].
  destruct (Ascii.eqb c sep); [discriminate|].
  destruct (split sep s); discriminate.
Qed.

Lemma split_app_sep sep p q :
  split sep (p ++ String sep q) = (split sep p ++ split sep q)%list.
Proof.
  induction p as [|c p IH]; simpl.
  - rewrite Ascii.eqb_refl. reflexivity.
  - destruct (Ascii.eqb c sep); [rewrite IH; reflexivity|].
    rewrite IH. pose proof (@split_nonempty sep p) as Hne.
    destruct (split sep p); [contradiction|reflexivity].
Qed.

Lemma split_no_sep sep s : has_char sep s = false -> split sep s = [s].
Proof.
  induction s as [|c s IH]; simpl; intros H; [reflexivity|].
  apply orb_false_iff in H. destruct H as [H1 H2].
  rewrite H1, (IH H2). reflexivity.
Qed.

Lemma has_char_app c a b : has_char c (a ++ b) = has_char c a || has_char c b.
Proof.
  induction a as [|x a IH]; simpl; [reflexivity|].
  rewrite IH, orb_assoc. reflexivity.
Qed.

Lemma has_char_zero_pad c w : forall n,
  is_digit c = false -> has_char c (zero_pad w n) = false.
Proof.
  induction w as [|w IH]; intros n Hc; simpl; [reflexivity|].
  rewrite has_char_app, (IH _ Hc). simpl. rewrite orb_false_r.
  destruct (Ascii.eqb (digit_char n) c) eqn:E; [|reflexivity].
  apply Ascii.eqb_eq in E. subst c.
  destruct (digit_char_spec n) as [D _]. congruence.
Qed.

Lemma append_assoc (a b c : string) : (a ++ b) ++ c = a ++ (b ++ c).
Proof. induction a as [|x a IH]; simpl; [reflexivity|]. rewrite IH. reflexivity. Qed.

(** the ".csv" at the end of a stem without a dot is the only occurrence
    that [replace] removes *)
Lemma replace_csv_suffix stem :
  has_char "."%char stem = false -> replace ".csv" "" (stem ++ ".csv") = stem.
Proof.
  unfold replace. induction stem as [|c stem IH]; intros H.
  - reflexivity.
  - simpl in H. apply orb_false_iff in H. destruct H as [H1 H2].
    cbn [append replace_from startswith].
    rewrite Ascii.eqb_sym, H1. cbn [andb]. rewrite (IH H2). reflexivity.
Qed.

Lemma append_empty_r (a : string) : a ++ "" = a.
Proof. induction a as [|x a IH]; simpl; [reflexivity|]. rewrite IH. reflexivity. Qed.

Lemma rev_onto_app_acc s : forall acc, rev_onto s acc = reverse s ++ acc.
Proof.
  unfold reverse. induction s as [|c s IH]; intros acc; simpl; [reflexivity|].
  rewrite IH, (IH (String c "")), append_assoc. reflexivity.
Qed.

Lemma rev_onto_append a : forall b acc,
  rev_onto (a ++ b) acc = rev_onto b (rev_onto a acc).
Proof.
  induction a as [|c a IH]; intros b acc; simpl; [reflexivity|]. apply IH.
Qed.

Lemma reverse_app a b : reverse (a ++ b) = reverse b ++ reverse a.
Proof.
  unfold reverse at 1. rewrite rev_onto_append, rev_onto_app_acc. reflexivity.
Qed.

Lemma startswith_app x : forall y z,
  startswith x y = true -> startswith x (y ++ z) = true.
Proof.
  induction x as [|a x IH]; intros [|b y] z H; simpl in *;
    try reflexivity; try discriminate.
  apply andb_true_iff in H. destruct H as [H1 H2].
  rewrite H1, (IH _ _ H2). reflexivity.
Qed.

Lemma startswith_refl x : startswith x x = true.
Proof.
  induction x as [|a x IH]; simpl; [reflexivity|].
  rewrite Ascii.eqb_refl, IH. reflexivity.
Qed.

Lemma endswith_app p a b : endswith p b = true -> endswith p (a ++ b) = true.
Proof.
  unfold endswith. intros H. rewrite reverse_app. apply startswith_app. exact H.
Qed.

Lemma endswith_suffix p a : endswith p (a ++ p) = true.
Proof.
  apply endswith_app. unfold endswith. apply startswith_refl.
Qed.

(** a joined path ends as the joined file name does *)
Lemma endswith_path_join p root file :
  endswith p file = true -> endswith p (path_join root file) = true.
Proof.
  intros H. unfold path_join.
  destruct (startswith "/" file); [exact H|].
  destruct ((String.length root =? 0)%nat || endswith "/" root).
  - apply endswith_app. exact H.
  - apply endswith_app. apply (@endswith_app p "/" file H).
Qed.

Lemma digit_char_not c k : is_digit c = false -> Ascii.eqb c (digit_char k) = false.
Proof.
  intros H. destruct (Ascii.eqb c (digit_char k)) eqn:E; [|reflexivity].
  apply Ascii.eqb_eq in E. subst c.
  destruct (digit_char_spec k) as [D _]. congruence.
Qed.

(** the file of month [d] below [prefix] is [prefix/YYYY/MM.csv] *)
Lemma partition_path_eq prefix d :
  partition_path prefix d
  = prefix ++ "/" ++ zero_pad 4 (year d) ++ "/" ++ zero_pad 2 (month d) ++ ".csv".
Proof.
  unfold partition_path, path_join. cbn [zero_pad append startswith].
  rewrite (@digit_char_not "/"%char (month d / 10) eq_refl). cbn [andb].
  assert (Hlen : (String.length
                    (prefix ++ String "/" (String (digit_char (year d / 10 / 10 / 10))
                       (String (digit_char (year d / 10 / 10))
                          (String (digit_char (year d / 10))
                             (String (digit_char (year d)) "")))))
                  =? 0)%nat = false).
  { destruct prefix; reflexivity. }
  rewrite Hlen. cbn [orb].
  unfold endswith. rewrite reverse_app. unfold reverse at 2.
  cbn [rev_onto append startswith reverse].
  rewrite (@digit_char_not "/"%char (year d) eq_refl). cbn [andb].
  rewrite append_assoc. reflexivity.
Qed.

Lemma index_from_end_two {A} (l : list A) (x y : A) :
  index_from_end (l ++ [x; y]) 2 = Some x
  /\ index_from_end (l ++ [x; y]) 1 = Some y.
Proof.
  unfold index_from_end. rewrite rev_app_distr. split; reflexivity.
Qed.

Lemma month_year_of_partition_path prefix d :
  month_year_of (partition_path prefix d)
  = Some (zero_pad 4 (year d) ++ "-" ++ zero_pad 2 (month d)).
Proof.
  rewrite partition_path_eq. unfold month_year_of.
  change (prefix ++ "/" ++ zero_pad 4 (year d) ++ "/"
          ++ zero_pad 2 (month d) ++ ".csv")
    with (prefix ++ String "/"%char
            (zero_pad 4 (year d) ++ String "/"%char (zero_pad 2 (month d) ++ ".csv"))).
  rewrite !split_app_sep.
  rewrite (@split_no_sep "/"%char (zero_pad 4 (year d)))
    by (apply has_char_zero_pad; reflexivity).
  rewrite (@split_no_sep "/"%char (zero_pad 2 (month d) ++ ".csv"))
    by (rewrite has_char_app, has_char_zero_pad by reflexivity; reflexivity).
  destruct (@index_from_end_two _ (split "/"%char prefix)
              (zero_pad 4 (year d)) (zero_pad 2 (month d) ++ ".csv")) as [H2 H1].
  cbn [app] in H2, H1 |- *. rewrite H2, H1.
  rewrite replace_csv_suffix by (apply has_char_zero_pad; reflexivity).
  reflexivity.
Qed.

Lemma strftime_four d :
  1000 <= year d ->
  strftime_Ym d = zero_pad 4 (year d) ++ "-" ++ zero_pad 2 (month d).
Proof. intros H. unfold strftime_Ym. rewrite (year_text_four H). reflexivity. Qed.

(** the text read from a folder of four digits with a year below 1000
    starts with a zero, which no rendered month does *)
Lemma padded_not_rendered d d' :
  valid d -> valid d' -> year d < 1000 ->
  zero_pad 4 (year d) ++ "-" ++ zero_pad 2 (month d) <> strftime_Ym d'.
Proof.
  destruct d as [y m], d' as [y' m'].
  unfold valid, MINYEAR, MAXYEAR, strftime_Ym, year_text. cbn [year month].
  intros [Hm Hy] [Hm' Hy'] H3.
  destruct (y' <? 10) eqn:B1;
    [|destruct (y' <? 100) eqn:B2; [|destruct (y' <? 1000) eqn:B3]];
    cbn [zero_pad append]; intros E; string_eq_digits;
    repeat match goal with
           | H : (_ <? _) = true |- _ => apply Z.ltb_lt in H
           | H : (_ <? _) = false |- _ => apply Z.ltb_ge in H
           end;
    Z.div_mod_to_equations; lia.
Qed.

(** X5: whatever directories lie above it, the file [YYYY/MM.csv] of a
    month of a year from 1000 to 9999 is read back as that month: the
    text compared with the date range is the "%Y-%m" rendering of the
    month.  (Below 1000 the folder of four digits and the rendering of
    the year differ.) *)
Theorem month_year_of_partition_file prefix d :
  valid d -> 1000 <= year d ->
  month_year_of (partition_path prefix d) = Some (strftime_Ym d).
Proof.
  intros _ H4. rewrite (strftime_four d H4).
  exact (month_year_of_partition_path prefix d).
Qed.

Lemma month_year_of_partition_file_example :
  strftime_Ym (mkdt 2023 7) = "2023-07"
  /\ month_year_of (partition_path "data/lancashire" (mkdt 2023 7))
     = Some (strftime_Ym (mkdt 2023 7)).
Proof.
  split; [reflexivity|].
  apply (@month_year_of_partition_file "data/lancashire" (mkdt 2023 7)).
  - unfold valid, MINYEAR, MAXYEAR. cbn [year month]. lia.
  - cbn [year]. lia.
Defined.

Lemma in_window_valid s e d : valid s -> valid e -> in_window s e d -> valid d.
Proof.
  intros Hs He (Hm & H1 & H2).
  apply dt_leb_months in H1; [|apply Hs|exact Hm].
  apply dt_leb_months in H2; [|exact Hm|apply He].
  destruct s as [ys ms], e as [ye me], d as [y m].
  unfold valid, months_of, MINYEAR, MAXYEAR in *. cbn [year month] in *. lia.
Qed.

(** X6: for an existing folder and a parseable window that is empty or
    does not end at 9999-12, the file of a month that the walk meets as
    [prefix/YYYY] with [MM.csv], the year on four digits, is returned
    exactly when the month lies in the window and its year is 1000 or
    later; the file of an earlier year is never returned, its folder
    [0YYY] not being the rendering of any month. *)
Theorem partition_file_returned_iff_in_window
  fs data_folder start_date end_date start end_ prefix d files :
  path_exists fs data_folder = true ->
  strptime_Ym start_date = Some start ->
  strptime_Ym end_date = Some end_ ->
  dt_leb start end_ = false \/ end_ <> last_month ->
  valid d ->
  In (prefix ++ "/" ++ zero_pad 4 (year d), files) (os_walk fs data_folder) ->
  In (zero_pad 2 (month d) ++ ".csv") files ->
  exists csv_files,
    extract_relevant_csv_files fs data_folder start_date end_date = Ok csv_files
    /\ (In (partition_path prefix d) csv_files
        <-> in_window start end_ d /\ 1000 <= year d).
Proof.
  intros Hex Hs He Hw Hd Hroot Hfile.
  pose proof (strptime_valid _ Hs) as Vs. pose proof (strptime_valid _ He) as Ve.
  destruct (@build_date_range_spec start end_ Vs Ve Hw) as (date_range & Hdr & Hin).
  exists (filter (selected date_range) (walked_csv_paths fs data_folder)). split.
  - unfold extract_relevant_csv_files. rewrite Hex, Hs, He, Hdr. reflexivity.
  - rewrite filter_In. unfold selected.
    rewrite month_year_of_partition_path, mem_In, Hin. split.
    + intros [_ (d' & Hd' & E)].
      pose proof (in_window_valid Vs Ve Hd') as Vd'.
      destruct (Z_lt_ge_dec (year d) 1000) as [H3|H4].
      { exfalso. exact (@padded_not_rendered d d' Hd Vd' H3 E). }
      assert (H4' : 1000 <= year d) by lia.
      rewrite <- (strftime_four d H4') in E.
      assert (d = d') by (apply strftime_inj; assumption).
      subst d'. split; assumption.
    + intros [Hwin H4]. split.
      * unfold walked_csv_paths. apply in_flat_map.
        exists (prefix ++ "/" ++ zero_pad 4 (year d), files). split; [exact Hroot|].
        cbn [fst snd]. unfold partition_path. apply in_map. apply filter_In.
        split; [exact Hfile|apply endswith_suffix].
      * exists d. split; [exact Hwin|]. symmetry. apply strftime_four. exact H4.
Qed.

Lemma partition_file_returned_iff_in_window_example :
  (exists csv_files,
     extract_relevant_csv_files Examples.fs_2023 "data" "2023-07" "2023-09"
     = Ok csv_files
     /\ (In "data/lancashire/2023/08.csv" csv_files
         <-> in_window (mkdt 2023 7) (mkdt 2023 9) (mkdt 2023 8)
             /\ 1000 <= year (mkdt 2023 8)))
  /\ (exists csv_files,
        extract_relevant_csv_files Examples.fs_0987 "data" "0987-03" "0987-03"
        = Ok csv_files
        /\ (In "data/lancashire/0987/03.csv" csv_files
            <-> in_window (mkdt 987 3) (mkdt 987 3) (mkdt 987 3)
                /\ 1000 <= year (mkdt 987 3)))
  /\ extract_relevant_csv_files Examples.fs_0987 "data" "0987-03" "0987-03" = Ok [].
Proof.
  split; [|split; [|reflexivity]].
  - apply (@partition_file_returned_iff_in_window
             Examples.fs_2023 "data" "2023-07" "2023-09" (mkdt 2023 7) (mkdt 2023 9)
             "data/lancashire" (mkdt 2023 8)
             ["07.csv"; "08.csv"; "09.csv"; "10.csv"]).
    + reflexivity.
    + reflexivity.
    + reflexivity.
    + right. discriminate.
    + unfold valid, MINYEAR, MAXYEAR. cbn [year month]. lia.
    + right. right. left. reflexivity.
    + right. left. reflexivity.
  - apply (@partition_file_returned_iff_in_window
             Examples.fs_0987 "data" "0987-03" "0987-03" (mkdt 987 3) (mkdt 987 3)
             "data/lancashire" (mkdt 987 3) ["03.csv"]).
    + reflexivity.
    + reflexivity.
    + reflexivity.
    + right. discriminate.
    + unfold valid, MINYEAR, MAXYEAR. cbn [year month]. lia.
    + left. reflexivity.
    + left. reflexivity.
Defined.

(** X7: a path the function returns is one of the walked paths, and it
    ends with ".csv"; files with another extension are never returned. *)
Theorem extract_relevant_csv_files_returns_walked_csv
  fs data_folder start_date end_date csv_files p :
  extract_relevant_csv_files fs data_folder start_date end_date = Ok csv_files ->
  In p csv_files ->
  endswith ".csv" p = true
  /\ exists root files file,
       In (root, files) (os_walk fs data_folder) /\ In file files
       /\ endswith ".csv" file = true /\ p = path_join root file.
Proof.
  unfold extract_relevant_csv_files. intros H Hp.
  destruct (negb (path_exists fs data_folder)); [discriminate|].
  destruct (strptime_Ym start_date) as [s|]; [|discriminate].
  destruct (strptime_Ym end_date) as [e|]; [|discriminate].
  destruct (build_date_range s e) as [dr| |]; try discriminate.
  injection H as <-. apply filter_In in Hp. destruct Hp as [Hp _].
  unfold walked_csv_paths in Hp. apply in_flat_map in Hp.
  destruct Hp as ([root files] & Hroot & Hp). cbn [fst snd] in Hp.
  apply in_map_iff in Hp. destruct Hp as (file & <- & Hfile).
  apply filter_In in Hfile. destruct Hfile as [Hfile Hcsv].
  split; [apply endswith_path_join; exact Hcsv|].
  exists root, files, file. repeat split; assumption.
Qed.

Lemma extract_relevant_csv_files_returns_walked_csv_example :
  endswith ".csv" "data/lancashire/2023/08.csv" = true
  /\ exists root files file,
       In (root, files) (os_walk Examples.fs_2023 "data") /\ In file files
       /\ endswith ".csv" file = true
       /\ "data/lancashire/2023/08.csv" = path_join root file.
Proof.
  apply (@extract_relevant_csv_files_returns_walked_csv
           Examples.fs_2023 "data" "2023-07" "2023-09"
           ["data/lancashire/2023/07.csv"; "data/lancashire/2023/08.csv";
            "data/lancashire/2023/09.csv"]).
  - reflexivity.
  - right. left. reflexivity.
Defined.

(** the folder is checked before the dates are read: a missing
    folder raises FileNotFoundError whatever the dates are, and with the
    folder in place a date that does not parse raises the ValueError of
    the format, before any file is looked at. *)
Theorem extract_relevant_csv_files_errors fs data_folder start_date end_date :
  (path_exists fs data_folder = false ->
   extract_relevant_csv_files fs data_folder start_date end_date
   = Err FileNotFoundError)
  /\ (path_exists fs data_folder = true ->
      strptime_Ym start_date = None \/ strptime_Ym end_date = None ->
      extract_relevant_csv_files fs data_folder start_date end_date
      = Err ValueError_format).
Proof.
  unfold extract_relevant_csv_files. split.
  - intros ->. reflexivity.
  - intros -> [H|H]; rewrite H; cbn [negb].
    + reflexivity.
    + destruct (strptime_Ym start_date); reflexivity.
Qed.

Lemma extract_relevant_csv_files_errors_example :
  extract_relevant_csv_files Examples.fs_2023 "nowhere" "2023-7x" "2023-09"
  = Err FileNotFoundError
  /\ extract_relevant_csv_files Examples.fs_2023 "data" "2023-07" "2023-13"
     = Err ValueError_format.
Proof.
  destruct (@extract_relevant_csv_files_errors
              Examples.fs_2023 "nowhere" "2023-7x" "2023-09") as [H1 _].
  destruct (@extract_relevant_csv_files_errors
              Examples.fs_2023 "data" "2023-07" "2023-13") as [_ H2].
  split.
  - apply H1. reflexivity.
  - apply H2; [reflexivity|right; reflexivity].
Defined.

(** X8: a window whose start is after its end selects nothing: the
    result is the empty list, not an error, whatever the folder holds. *)
Theorem extract_relevant_csv_files_empty_window
  fs data_folder start_date end_date start end_ :
  path_exists fs data_folder = true ->
  strptime_Ym start_date = Some start ->
  strptime_Ym end_date = Some end_ ->
  dt_leb start end_ = false ->
  extract_relevant_csv_files fs data_folder start_date end_date = Ok [].
Proof.
  intros Hex Hs He Hle. unfold extract_relevant_csv_files, build_date_range.
  rewrite Hex, Hs, He. cbn [negb]. unfold loop_fuel. cbn [month_loop].
  rewrite Hle. f_equal. apply filter_none. intros p _.
  unfold selected. destruct (month_year_of p); reflexivity.
Qed.

Lemma extract_relevant_csv_files_empty_window_example :
  extract_relevant_csv_files Examples.fs_2023 "data" "2023-09" "2023-07" = Ok [].
Proof.
  apply (@extract_relevant_csv_files_empty_window
           Examples.fs_2023 "data" "2023-09" "2023-07" (mkdt 2023 9) (mkdt 2023 7));
    reflexivity.
Defined.

End CatalogProps.

(** ** Batch Controller and PostgreSQL merge *)

Module PostgresProps.

Import Py Postgres.

Lemma calls_write_csv_to_staging env f w :
  calls (write_csv_to_staging env f w) = (calls w ++ [Stage f])%list.
Proof.
  unfold write_csv_to_staging.
  destruct (session_fault env (sessions w)); [reflexivity|].
  destruct (csv_rows env f); reflexivity.
Qed.

Lemma calls_upload_staging_to_prod env w :
  calls (upload_staging_to_prod env w) = (calls w ++ [Merge])%list.
Proof.
  unfold upload_staging_to_prod.
  destruct (session_fault env (sessions w)); [reflexivity|].
  destruct (prod_violation env _); reflexivity.
Qed.

Lemma calls_truncate_staging env w :
  calls (truncate_staging env w) = (calls w ++ [Truncate])%list.
Proof.
  unfold truncate_staging.
  destruct (session_fault env (sessions w)); reflexivity.
Qed.

(** The loop entered with [k] files counted since the last merge makes the
    calls of the schedule that starts at any position [j] congruent to
    [k + 1] modulo 5, whatever the loads, merges and truncations do. *)
Lemma main_loop_calls env files : forall (k j : nat) w,
  (k < 5)%nat -> (j mod 5 = (k + 1) mod 5)%nat ->
  calls (main_loop env files (Z.of_nat k) w)
  = (calls w ++ schedule_from j files)%list.
Proof.
  induction files as [|f rest IH]; intros k j w Hk Hj.
  - simpl. rewrite app_nil_r. reflexivity.
  - cbn [main_loop schedule_from].
    destruct (Z.of_nat k + 1 =? 5) eqn:E.
    + apply Z.eqb_eq in E. assert (k = 4%nat) by lia. subst k.
      change ((4 + 1) mod 5)%nat with 0%nat in Hj.
      rewrite (IH 0%nat (S j)).
      * rewrite calls_truncate_staging, calls_upload_staging_to_prod,
          calls_write_csv_to_staging.
        rewrite Hj. cbn [Nat.eqb]. rewrite <- !app_assoc. reflexivity.
      * lia.
      * change ((0 + 1) mod 5)%nat with 1%nat.
        replace (S j) with (j + 1)%nat by lia.
        rewrite Nat.Div0.add_mod, Hj. reflexivity.
    + apply Z.eqb_neq in E.
      replace (Z.of_nat k + 1) with (Z.of_nat (S k)) by lia.
      rewrite (IH (S k) (S j)).
      * rewrite calls_write_csv_to_staging.
        assert (Hne : (j mod 5 =? 0)%nat = false).
        { apply Nat.eqb_neq. rewrite Hj.
          rewrite Nat.mod_small by lia. lia. }
        rewrite Hne. rewrite <- !app_assoc. reflexivity.
      * lia.
      * replace (S j) with (j + 1)%nat by lia.
        replace (S k + 1)%nat with ((k + 1) + 1)%nat by lia.
        rewrite Nat.Div0.add_mod, Hj, <- Nat.Div0.add_mod. reflexivity.
Qed.




(** C1, on the code: with 12 files the merge is invoked twice, on batches
    of 5 and 5 files, whatever the environment; in a run of [main] over
    the twelve months of a year, without any failure, the rows of the
    last two files are still in staging when the run ends and only ten
    rows have reached production. *)
Theorem main_12_files_leaves_last_two_staged :
  (forall env,
     merged_batches (calls (main_loop env Examples.files12 0 initial_world))
     = [5; 5]%nat)
  /\ exists w,
       main Examples.env_ok Examples.fs_year Examples.config_year initial_world
       = Completed w
       /\ List.length (filter is_merge (calls w)) = 2%nat
       /\ merged_batches (calls w) = [5; 5]%nat
       /\ crimes_staging (db w)
          = [Examples.row_of "data/lancashire/2023/11.csv";
             Examples.row_of "data/lancashire/2023/12.csv"]
       /\ List.length (crimes_prod (db w)) = 10%nat
       /\ log w = [(INFO, "Preparing to ingest 12 files to staging and production.")].
Proof.
  split.
  - intros env.
    pose proof (@main_loop_calls env Examples.files12 0%nat 1%nat initial_world) as H.
    change (Z.of_nat 0) with 0 in H.
    rewrite H; [reflexivity|lia|reflexivity].
  - eexists. split; [vm_compute; reflexivity|].
    repeat split.
Qed.

(** C2, on the code: five files are staged, the merge fails; the failure
    is logged, and the truncation that follows empties staging although
    nothing has reached production. *)
Theorem failed_merge_is_followed_by_truncation :
  let w := main_loop Examples.env_merge_fails Examples.files5 0 initial_world in
  calls w = [Stage "01.csv"; Stage "02.csv"; Stage "03.csv"; Stage "04.csv";
             Stage "05.csv"; Merge; Truncate]
  /\ log w = [(ERROR, "Error uploading to production: connection lost")]
  /\ crimes_prod (db w) = []
  /\ crimes_staging (db w) = [].
Proof. repeat split. Qed.

(** in general: when the merge connection fails and the truncation does
    not, the staged rows are gone and production is what it was *)
Lemma truncate_after_failed_merge env w e :
  session_fault env (sessions w) = Some e ->
  session_fault env (S (sessions w)) = None ->
  let w' := truncate_staging env (upload_staging_to_prod env w) in
  crimes_staging (db w') = [] /\ crimes_prod (db w') = crimes_prod (db w).
Proof.
  intros H1 H2. unfold upload_staging_to_prod, truncate_staging.
  rewrite H1. cbn. rewrite H2. cbn. split; reflexivity.
Qed.

(** C4, on the code: production holds the row of a.csv, staging holds it
    again together with the row of b.csv.  Insert-if-absent would leave
    production with the rows of a.csv and b.csv; the INSERT ... SELECT
    either appends both staged rows or, rejected by a constraint or a
    failed connection, appends none. *)
Theorem upload_staging_to_prod_is_not_insert_if_absent env :
  let a := select_row (Examples.row_of "a.csv") in
  let b := select_row (Examples.row_of "b.csv") in
  let prod' := crimes_prod (db (upload_staging_to_prod env Examples.world_a_ab)) in
  (prod' = [a; a; b] \/ prod' = [a]) /\ prod' <> [a; b].
Proof.
  cbv zeta. unfold upload_staging_to_prod.
  destruct (session_fault env (sessions Examples.world_a_ab)).
  - split; [right; reflexivity|discriminate].
  - destruct (prod_violation env _).
    + split; [right; reflexivity|discriminate].
    + split; [left; reflexivity|discriminate].
Qed.

(** a merge that no failure interrupts appends every staged row *)
Lemma db_upload_staging_to_prod env w :
  (forall n, session_fault env n = None) ->
  (forall rows, prod_violation env rows = None) ->
  db (upload_staging_to_prod env w)
  = {| crimes_staging := crimes_staging (db w);
       crimes_prod := (crimes_prod (db w)
                       ++ map select_row (crimes_staging (db w)))%list |}.
Proof.
  intros Hf Hv. unfold upload_staging_to_prod. rewrite Hf, Hv. reflexivity.
Qed.

(** merging the same staging content twice, without constraints on the
    production table: every row is inserted twice *)
Lemma upload_staging_to_prod_twice env w :
  (forall n, session_fault env n = None) ->
  (forall rows, prod_violation env rows = None) ->
  let w1 := upload_staging_to_prod env w in
  let w2 := upload_staging_to_prod env w1 in
  List.length (crimes_prod (db w2))
  = (List.length (crimes_prod (db w1)) + List.length (crimes_staging (db w)))%nat.
Proof.
  intros Hf Hv. cbv zeta.
  rewrite (@db_upload_staging_to_prod env (upload_staging_to_prod env w) Hf Hv).
  rewrite (@db_upload_staging_to_prod env w Hf Hv).
  cbn [crimes_prod crimes_staging].
  rewrite !length_app, !length_map. lia.
Qed.

(** C9 on this path: a merge that succeeds logs nothing at all *)
Lemma upload_staging_to_prod_logs_nothing env w :
  session_fault env (sessions w) = None ->
  prod_violation env
    (crimes_prod (db w) ++ map select_row (crimes_staging (db w)))%list = None ->
  log (upload_staging_to_prod env w) = log w.
Proof.
  intros H1 H2. unfold upload_staging_to_prod. rewrite H1, H2. reflexivity.
Qed.

(** *** Counting calls, and where the rows end up *)

Import Loaded.

Ltac nat_div_mod := zify; Z.div_mod_to_equations; lia.







Lemma db_write_csv_to_staging env f w :
  failure_free env ->
  db (write_csv_to_staging env f w)
  = {| crimes_staging := (crimes_staging (db w) ++ loaded_rows env [f])%list;
       crimes_prod := crimes_prod (db w) |}.
Proof.
  intros [Hf _]. unfold write_csv_to_staging, loaded_rows. rewrite Hf.
  cbn [flat_map]. rewrite app_nil_r.
  destruct (csv_rows env f); cbn [db log_error commit connect].
  - rewrite app_nil_r. destruct (db w); reflexivity.
  - reflexivity.
Qed.

Lemma db_truncate_staging env w :
  failure_free env ->
  db (truncate_staging env w)
  = {| crimes_staging := []; crimes_prod := crimes_prod (db w) |}.
Proof. intros [Hf _]. unfold truncate_staging. rewrite Hf. reflexivity. Qed.

Lemma loaded_rows_cons env f rest :
  loaded_rows env (f :: rest) = (loaded_rows env [f] ++ loaded_rows env rest)%list.
Proof. unfold loaded_rows. cbn [flat_map]. rewrite app_nil_r. reflexivity. Qed.

(** X20: in a run in which no connection fails and no constraint
    rejects a merge, no row is lost and none is duplicated: at the end,
    production followed by the staged rows is production as it was,
    followed by the rows staged before and the rows of all the files
    that loaded, in order. *)
Theorem main_loop_conserves_rows env files : forall k w,
  failure_free env ->
  (crimes_prod (db (main_loop env files k w))
   ++ map select_row (crimes_staging (db (main_loop env files k w))))%list
  = (crimes_prod (db w)
     ++ map select_row (crimes_staging (db w) ++ loaded_rows env files))%list.
Proof.
  induction files as [|f rest IH]; intros k w Hff.
  - cbn [main_loop loaded_rows flat_map]. rewrite app_nil_r. reflexivity.
  - cbn [main_loop]. destruct (k + 1 =? 5).
    + rewrite IH by exact Hff.
      rewrite (db_truncate_staging _ Hff). cbn [crimes_prod crimes_staging].
      destruct Hff as [Hf Hv].
      rewrite (@db_upload_staging_to_prod env _ Hf Hv). cbn [crimes_prod crimes_staging].
      rewrite (db_write_csv_to_staging f w (conj Hf Hv)).
      cbn [crimes_prod crimes_staging app].
      rewrite (loaded_rows_cons env f rest), !map_app, <- !app_assoc. reflexivity.
    + rewrite IH by exact Hff.
      rewrite (db_write_csv_to_staging f w Hff). cbn [crimes_prod crimes_staging].
      rewrite (loaded_rows_cons env f rest), <- !app_assoc. reflexivity.
Qed.

Lemma main_loop_conserves_rows_example :
  (crimes_prod (db (main_loop Examples.env_bad_file Examples.files12 0 initial_world))
   ++ map select_row
        (crimes_staging
           (db (main_loop Examples.env_bad_file Examples.files12 0 initial_world))))%list
  = ([] ++ map select_row ([] ++ loaded_rows Examples.env_bad_file Examples.files12))%list.
Proof.
  apply (@main_loop_conserves_rows Examples.env_bad_file Examples.files12 0
           initial_world).
  split; reflexivity.
Defined.

(** where the rows are after a run that starts with [k] files counted *)
Lemma main_loop_db env files : forall (k : nat) w,
  failure_free env -> (k < 5)%nat ->
  let n := List.length files in
  let t := ((k + n) mod 5)%nat in
  db (main_loop env files (Z.of_nat k) w)
  = if (k + n <? 5)%nat
    then {| crimes_staging := (crimes_staging (db w) ++ loaded_rows env files)%list;
            crimes_prod := crimes_prod (db w) |}
    else {| crimes_staging := loaded_rows env (skipn (n - t) files);
            crimes_prod :=
              (crimes_prod (db w)
               ++ map select_row
                    (crimes_staging (db w)
                     ++ loaded_rows env (firstn (n - t) files)))%list |}.
Proof.
  induction files as [|f rest IH]; intros k w Hff Hk; cbv zeta.
  - cbn [main_loop List.length loaded_rows flat_map]. rewrite Nat.add_0_r.
    replace (k <? 5)%nat with true by (symmetry; apply Nat.ltb_lt; exact Hk).
    rewrite app_nil_r. destruct (db w); reflexivity.
  - cbn [main_loop List.length].
    destruct (Z.of_nat k + 1 =? 5) eqn:E.
    + apply Z.eqb_eq in E. assert (k = 4%nat) by lia. subst k.
      replace (4 + S (List.length rest) <? 5)%nat with false
        by (symmetry; apply Nat.ltb_ge; lia).
      change 0 with (Z.of_nat 0). rewrite (IH 0%nat) by (assumption || lia).
      cbv zeta. rewrite (db_truncate_staging _ Hff). cbn [crimes_prod crimes_staging].
      destruct Hff as [Hf Hv].
      rewrite (@db_upload_staging_to_prod env _ Hf Hv). cbn [crimes_prod crimes_staging].
      rewrite (db_write_csv_to_staging f w (conj Hf Hv)).
      cbn [crimes_prod crimes_staging app]. rewrite !Nat.add_0_l.
      replace ((4 + S (List.length rest)) mod 5)%nat
        with (List.length rest mod 5)%nat by nat_div_mod.
      assert (Ht : (List.length rest mod 5 <= List.length rest)%nat)
        by (apply Nat.Div0.mod_le).
      replace (S (List.length rest) - List.length rest mod 5)%nat
        with (S (List.length rest - List.length rest mod 5)) by lia.
      cbn [skipn firstn]. rewrite (loaded_rows_cons env f (firstn _ rest)).
      destruct (List.length rest <? 5)%nat eqn:L.
      * apply Nat.ltb_lt in L. rewrite Nat.mod_small by exact L.
        rewrite Nat.sub_diag. cbn [skipn firstn loaded_rows flat_map].
        rewrite !app_nil_r. reflexivity.
      * rewrite !map_app, <- !app_assoc. reflexivity.
    + apply Z.eqb_neq in E.
      replace (Z.of_nat k + 1) with (Z.of_nat (S k)) by lia.
      rewrite (IH (S k)) by (assumption || lia). cbv zeta.
      rewrite (db_write_csv_to_staging f w Hff). cbn [crimes_prod crimes_staging].
      replace (S k + List.length rest)%nat with (k + S (List.length rest))%nat by lia.
      destruct (k + S (List.length rest) <? 5)%nat eqn:L.
      * rewrite (loaded_rows_cons env f rest), <- app_assoc. reflexivity.
      * apply Nat.ltb_ge in L.
        assert (Ht : ((k + S (List.length rest)) mod 5 < List.length rest)%nat)
          by nat_div_mod.
        replace (S (List.length rest) - (k + S (List.length rest)) mod 5)%nat
          with (S (List.length rest - (k + S (List.length rest)) mod 5)) by lia.
        cbn [skipn firstn]. rewrite (loaded_rows_cons env f (firstn _ rest)).
        rewrite <- !app_assoc. reflexivity.
Qed.

(** X21: in a run in which no connection fails and no constraint
    rejects a merge, started with an empty staging table, the rows of
    the files before the last n mod 5 are appended to production, and
    the rows of the last n mod 5 files are what staging holds at the end. *)
Theorem main_loop_leaves_remainder_staged env files w :
  failure_free env ->
  crimes_staging (db w) = [] ->
  let n := List.length files in
  let w' := main_loop env files 0 w in
  crimes_staging (db w') = loaded_rows env (skipn (n - n mod 5) files)
  /\ crimes_prod (db w')
     = (crimes_prod (db w)
        ++ map select_row (loaded_rows env (firstn (n - n mod 5) files)))%list.
Proof.
  intros Hff Hs. cbv zeta.
  pose proof (@main_loop_db env files 0%nat w Hff ltac:(lia)) as H.
  cbv zeta in H. change (Z.of_nat 0) with 0 in H. cbn [Nat.add] in H.
  rewrite H, Hs. cbn [app].
  destruct (List.length files <? 5)%nat eqn:L.
  - apply Nat.ltb_lt in L. rewrite Nat.mod_small by exact L.
    rewrite Nat.sub_diag. cbn [skipn firstn loaded_rows flat_map map crimes_staging crimes_prod].
    rewrite app_nil_r. split; reflexivity.
  - split; reflexivity.
Qed.

Lemma main_loop_leaves_remainder_staged_example :
  crimes_staging (db (main_loop Examples.env_ok Examples.files12 0 initial_world))
  = loaded_rows Examples.env_ok ["11.csv"; "12.csv"]
  /\ crimes_prod (db (main_loop Examples.env_ok Examples.files12 0 initial_world))
     = ([] ++ map select_row
                (loaded_rows Examples.env_ok
                   ["01.csv"; "02.csv"; "03.csv"; "04.csv"; "05.csv";
                    "06.csv"; "07.csv"; "08.csv"; "09.csv"; "10.csv"]))%list.
Proof.
  apply (@main_loop_leaves_remainder_staged
           Examples.env_ok Examples.files12 initial_world).
  - split; reflexivity.
  - reflexivity.
Defined.

Lemma prod_step_write env f w :
  crimes_prod (db (write_csv_to_staging env f w)) = crimes_prod (db w).
Proof.
  unfold write_csv_to_staging.
  destruct (session_fault env (sessions w)); [reflexivity|].
  destruct (csv_rows env f); reflexivity.
Qed.

Lemma prod_step_truncate env w :
  crimes_prod (db (truncate_staging env w)) = crimes_prod (db w).
Proof.
  unfold truncate_staging.
  destruct (session_fault env (sessions w)); reflexivity.
Qed.

Lemma prod_step_upload env w :
  exists added,
    crimes_prod (db (upload_staging_to_prod env w))
    = (crimes_prod (db w) ++ added)%list
    /\ Forall point_derived added.
Proof.
  unfold upload_staging_to_prod.
  destruct (session_fault env (sessions w)).
  { exists []. split; [cbn; rewrite app_nil_r; reflexivity|constructor]. }
  destruct (prod_violation env _).
  { exists []. split; [cbn; rewrite app_nil_r; reflexivity|constructor]. }
  exists (map select_row (crimes_staging (db w))). split; [reflexivity|].
  apply Forall_forall. intros p Hp. apply in_map_iff in Hp.
  destruct Hp as (s & <- & _). reflexivity.
Qed.

(** X22: whatever the environment does, a run only appends to the
    production table: the rows of before are the first rows of after,
    unchanged, and every row added has the point built from its own
    longitude and latitude (NULL when one of them is NULL). *)
Theorem main_loop_only_appends_to_prod env files : forall k w,
  exists added,
    crimes_prod (db (main_loop env files k w)) = (crimes_prod (db w) ++ added)%list
    /\ Forall point_derived added.
Proof.
  induction files as [|f rest IH]; intros k w.
  - exists []. split; [cbn; rewrite app_nil_r; reflexivity|constructor].
  - cbn [main_loop]. destruct (k + 1 =? 5).
    + destruct (IH 0 (truncate_staging env
                        (upload_staging_to_prod env (write_csv_to_staging env f w))))
        as (a2 & E2 & F2).
      destruct (prod_step_upload env (write_csv_to_staging env f w)) as (a1 & E1 & F1).
      exists (a1 ++ a2)%list. split.
      * rewrite E2, prod_step_truncate, E1, prod_step_write, app_assoc. reflexivity.
      * apply Forall_app. split; assumption.
    + destruct (IH (k + 1) (write_csv_to_staging env f w)) as (a & E & F).
      exists a. split; [|exact F]. rewrite E, prod_step_write. reflexivity.
Qed.

End PostgresProps.

(** ** Proximity Query Service *)

Module ApiProps.

Import Api.

(** C5, on the code: against a working backend that matches no record the
    404 raised in the try block is caught by [except Exception] and
    re-raised as a 500 whose detail is the text of the 404; the response
    status is the one a failing query gets. *)
Theorem get_crimes_empty_result_is_500
  (float record : Type) (longitude latitude radius : float) (fault : string) :
  let working : backend float record :=
    {| connect := None; fetch := fun _ _ _ => inr [] |} in
  let failing : backend float record :=
    {| connect := None; fetch := fun _ _ _ => inl fault |} in
  get_crimes working longitude latitude radius
  = Raise record
      (HTTPException 500
         (Str (HTTPException 404 (Text "No crimes found in the given area."))))
  /\ response_status (get_crimes working longitude latitude radius) = 500
  /\ response_status (get_crimes failing longitude latitude radius) = 500.
Proof. repeat split. Qed.

(** a query that matches records returns them, with status 200 *)
Lemma get_crimes_returns_matches
  (float record : Type) (be : backend float record)
  (longitude latitude radius : float) r rs :
  connect be = None ->
  fetch be longitude latitude radius = inr (r :: rs) ->
  get_crimes be longitude latitude radius = Return (r :: rs)
  /\ response_status (get_crimes be longitude latitude radius) = 200.
Proof.
  intros Hc Hf. unfold get_crimes, query_body. rewrite Hc, Hf. split; reflexivity.
Qed.

(** no outcome of [get_crimes] carries status 404 *)
Lemma get_crimes_never_404
  (float record : Type) (be : backend float record)
  (longitude latitude radius : float) :
  response_status (get_crimes be longitude latitude radius) <> 404.
Proof.
  unfold get_crimes, query_body.
  destruct (connect be); [discriminate|].
  destruct (fetch be longitude latitude radius) as [msg|[|r rs]]; discriminate.
Qed.

(** X23: the status of the response to [GET /crimes/] is 422, 200 or
    500 and nothing else.  It is 422, and the function is not called,
    exactly when validation refuses the request: [longitude] or
    [latitude] is absent or not a float, or [radius] is given and is not
    a float greater than 0.  Otherwise the function is called with the
    given values, [radius] being 1000 when absent, and the status is 200
    exactly when the connection is obtained and the query returns at
    least one row, which is then what the endpoint returns; it is 500
    when the connection fails, the query fails or no row matches. *)
Theorem get_crimes_status
  (float record : Type) (gt_zero : float -> bool) (default_radius : float)
  (be : backend float record) (longitude latitude radius : param float) :
  let status := crimes_route gt_zero default_radius be longitude latitude radius in
  (status = 422
   /\ ((forall lon, longitude <> Value lon)
       \/ (forall lat, latitude <> Value lat)
       \/ radius = Malformed float
       \/ exists r, radius = Value r /\ gt_zero r = false))
  \/ (exists lon lat r,
        longitude = Value lon /\ latitude = Value lat
        /\ (radius = Absent float /\ r = default_radius
            \/ radius = Value r /\ gt_zero r = true)
        /\ (status = 200
            /\ connect be = None
            /\ (exists row rows,
                  fetch be lon lat r = inr (row :: rows)
                  /\ get_crimes be lon lat r = Return (row :: rows))
            \/ status = 500
               /\ (connect be <> None
                   \/ (exists msg, fetch be lon lat r = inl msg)
                   \/ fetch be lon lat r = inr []))).
Proof.
  assert (Hcall : forall lon lat r,
    response_status (get_crimes be lon lat r) = 200
    /\ connect be = None
    /\ (exists row rows,
          fetch be lon lat r = inr (row :: rows)
          /\ get_crimes be lon lat r = Return (row :: rows))
    \/ response_status (get_crimes be lon lat r) = 500
       /\ (connect be <> None
           \/ (exists msg, fetch be lon lat r = inl msg)
           \/ fetch be lon lat r = inr [])).
  { intros lon lat r. unfold get_crimes, query_body.
    destruct (connect be) as [msg|].
    - right. split; [reflexivity|]. left. discriminate.
    - destruct (fetch be lon lat r) as [msg|[|row rows]].
      + right. split; [reflexivity|]. right. left. exists msg. reflexivity.
      + right. split; [reflexivity|]. right. right. reflexivity.
      + left. split; [reflexivity|]. split; [reflexivity|].
        exists row, rows. split; reflexivity. }
  cbv zeta. unfold crimes_route, validate.
  destruct longitude as [| |lon].
  - left. split; [reflexivity|]. left. discriminate.
  - left. split; [reflexivity|]. left. discriminate.
  - destruct latitude as [| |lat].
    + left. split; [reflexivity|]. right. left. discriminate.
    + left. split; [reflexivity|]. right. left. discriminate.
    + destruct radius as [| |r].
      * right. exists lon, lat, default_radius.
        split; [reflexivity|]. split; [reflexivity|].
        split; [left; split; reflexivity|]. apply Hcall.
      * left. split; [reflexivity|]. right. right. left. reflexivity.
      * destruct (gt_zero r) eqn:G.
        -- right. exists lon, lat, r.
           split; [reflexivity|]. split; [reflexivity|].
           split; [right; split; [reflexivity|exact G]|]. apply Hcall.
        -- left. split; [reflexivity|]. right. right. right.
           exists r. split; [reflexivity|exact G].
Qed.

End ApiProps.

(** ** Merge Engine on BigQuery *)

Module BigQueryProps.

Import Py BigQuery Basics.

Section Engine.

Variable PARSE_DATE_Ym : string -> option DATE.
Variable ST_GEOGPOINT : FLOAT64 -> FLOAT64 -> option GEOGRAPHY.
Variable str_of_exn : exn -> string.

Lemma all_rows_In {A B} (f : A -> option B) l ys y :
  all_rows f l = Some ys -> In y ys -> exists x, In x l /\ f x = Some y.
Proof.
  revert ys. induction l as [|x l IH]; intros ys H Hin.
  - injection H as <-. destruct Hin.
  - simpl in H. destruct (f x) as [y0|] eqn:Fx; [|discriminate].
    destruct (all_rows f l) as [ys0|]; [|discriminate].
    injection H as <-. destruct Hin as [<-|Hin].
    + exists x. split; [left; reflexivity|exact Fx].
    + destruct (IH ys0 eq_refl Hin) as (x' & Hx' & E).
      exists x'. split; [right; exact Hx'|exact E].
Qed.

(** every row of the [stage] subquery has a crime id and a longitude *)
Lemma stage_rows_have_id_and_longitude rows src p :
  stage PARSE_DATE_Ym ST_GEOGPOINT rows = Some src -> In p src ->
  Production.crime_id p <> None /\ Production.longitude p <> None.
Proof.
  unfold stage. intros H Hin.
  destruct (@all_rows_In _ _ _ _ _ _ H Hin) as (s & Hs & E).
  apply filter_In in Hs. destruct Hs as [_ Hw].
  unfold stage_where in Hw. apply andb_true_iff in Hw. destruct Hw as [Hl Hc].
  unfold stage_row in E.
  destruct (match Staging.month s with
            | Some m => option_map Some (PARSE_DATE_Ym m)
            | None => Some None end); [|discriminate].
  destruct (match Staging.longitude s, Staging.latitude s with
            | Some lon, Some lat => option_map Some (ST_GEOGPOINT lon lat)
            | _, _ => Some None end); [|discriminate].
  injection E as <-. cbn.
  destruct (Staging.crime_id s); [|discriminate].
  destruct (Staging.longitude s); [|discriminate].
  split; discriminate.
Qed.

Lemma date_eqb_refl d : date_eqb d d = true.
Proof. unfold date_eqb. rewrite !Z.eqb_refl. reflexivity. Qed.

(** a row with a complete key matches itself *)
Lemma merge_on_refl p :
  Production.crime_id p <> None -> Production.month_year p <> None ->
  merge_on p p = true.
Proof.
  unfold merge_on. intros Hc Hm.
  destruct (Production.crime_id p); [|contradiction].
  destruct (Production.month_year p); [|contradiction].
  cbn. rewrite String.eqb_refl, date_eqb_refl. reflexivity.
Qed.

(** insert-if-absent: a row is inserted only if no production row
    matches it on the key *)
Lemma inserted_not_matched prod src p :
  In p (inserted prod src) ->
  In p src /\ forall q, In q prod -> merge_on q p = false.
Proof.
  unfold inserted, not_matched. intros H. apply filter_In in H.
  destruct H as [Hin Hn]. split; [exact Hin|].
  intros q Hq. apply negb_true_iff in Hn.
  destruct (merge_on q p) eqn:E; [|reflexivity].
  assert (existsb (fun p0 => merge_on p0 p) prod = true)
    by (apply existsb_exists; exists q; split; assumption).
  congruence.
Qed.

(** idempotence of the MERGE on rows with a complete key: merged again
    on the same staging content, it inserts nothing *)
Lemma inserted_twice_nothing prod src :
  (forall p, In p src ->
     Production.crime_id p <> None /\ Production.month_year p <> None) ->
  inserted (prod ++ inserted prod src) src = [].
Proof.
  intros Hkey. unfold inserted at 1. apply filter_none.
  intros p Hp. unfold not_matched. apply negb_false_iff.
  rewrite existsb_app. apply orb_true_iff.
  destruct (existsb (fun q => merge_on q p) prod) eqn:E; [left; reflexivity|].
  right. apply existsb_exists. exists p. split.
  - unfold inserted. apply filter_In. split; [exact Hp|].
    unfold not_matched. rewrite E. reflexivity.
  - destruct (Hkey p Hp). apply merge_on_refl; assumption.
Qed.

(** the merge on BigQuery run twice on the same staging content, all of
    whose months are present, leaves production as the first run left it *)
Lemma load_staging_to_production_twice ds log0 rows src :
  staging ds = Some rows ->
  stage PARSE_DATE_Ym ST_GEOGPOINT rows = Some src ->
  (forall p, In p src -> Production.month_year p <> None) ->
  let '(ds1, log1, _) :=
    load_staging_to_production PARSE_DATE_Ym ST_GEOGPOINT None ds log0 in
  let '(ds2, _, _) :=
    load_staging_to_production PARSE_DATE_Ym ST_GEOGPOINT None ds1 log1 in
  production ds2 = production ds1
  /\ production ds1 = (production ds ++ inserted (production ds) src)%list.
Proof.
  intros Hs Hst Hm. unfold load_staging_to_production.
  rewrite Hs, Hst. cbn. rewrite Hst. cbn. split; [|reflexivity].
  rewrite inserted_twice_nothing; [apply app_nil_r|].
  intros p Hp. split; [|apply Hm; exact Hp].
  apply (@stage_rows_have_id_and_longitude _ _ _ Hst Hp).
Qed.

(** the script deletes the staging table only after a merge that
    returned: when the merge raises, staging is what it was *)
Lemma staging_kept_when_load_fails
  staging_table_id merge_fault delete_fault ds log0 ds1 log1 e :
  load_staging_to_production PARSE_DATE_Ym ST_GEOGPOINT merge_fault ds log0
    = (ds1, log1, Raised e) ->
  fst (load_then_delete PARSE_DATE_Ym ST_GEOGPOINT str_of_exn
         staging_table_id merge_fault delete_fault ds log0)
  = ds.
Proof.
  intros H. unfold load_then_delete. rewrite H. cbn [fst].
  unfold load_staging_to_production in H.
  destruct merge_fault; [injection H as <- _ _; reflexivity|].
  destruct (staging ds); [|injection H as <- _ _; reflexivity].
  destruct (stage _ _ _); [discriminate|injection H as <- _ _; reflexivity].
Qed.

(** C9 (as amended): a merge that succeeds hands back no value.  On
    BigQuery it logs the two fixed messages, whatever was inserted; on
    PostgreSQL it logs nothing.  No row count is returned or logged. *)
Theorem merge_returns_none_and_logs_no_count
  service_fault ds log0 ds' log' v env w :
  load_staging_to_production PARSE_DATE_Ym ST_GEOGPOINT service_fault ds log0
    = (ds', log', Returned v) ->
  Postgres.session_fault env (Postgres.sessions w) = None ->
  Postgres.prod_violation env
    (Postgres.crimes_prod (Postgres.db w)
     ++ map Postgres.select_row (Postgres.crimes_staging (Postgres.db w)))%list
    = None ->
  v = PyNone
  /\ log' = (log0 ++
       [(INFO, "Starting query job to load data from staging to production...");
        (INFO, "Data successfully loaded into production table.")])%list
  /\ Postgres.log (Postgres.upload_staging_to_prod env w) = Postgres.log w.
Proof.
  intros H Hf Hv. split; [|split].
  - unfold load_staging_to_production in H.
    destruct service_fault; [discriminate|].
    destruct (staging ds); [|discriminate].
    destruct (stage _ _ _); [|discriminate].
    injection H as _ _ <-. reflexivity.
  - unfold load_staging_to_production in H.
    destruct service_fault; [discriminate|].
    destruct (staging ds); [|discriminate].
    destruct (stage _ _ _); [|discriminate].
    injection H as _ <- _. rewrite <- app_assoc. reflexivity.
  - apply PostgresProps.upload_staging_to_prod_logs_nothing; assumption.
Qed.

End Engine.

(** a run of both merges that inserts one row each *)
Lemma merge_returns_none_and_logs_no_count_one_row :
  PyNone = PyNone
  /\ snd (fst (Examples.bq_load (Examples.bq_dataset [Examples.bq_row "c1"])))
     = [(INFO, "Starting query job to load data from staging to production...");
        (INFO, "Data successfully loaded into production table.")]
  /\ Postgres.log (Postgres.upload_staging_to_prod Examples.env_ok Examples.world_a_ab)
     = [].
Proof.
  destruct (Examples.bq_load (Examples.bq_dataset [Examples.bq_row "c1"]))
    as [[ds' log'] out] eqn:E.
  assert (Hv : out = Returned PyNone) by (vm_compute in E; congruence).
  subst out.
  destruct (@merge_returns_none_and_logs_no_count
              parse_date_Ym st_geogpoint None
              (Examples.bq_dataset [Examples.bq_row "c1"]) [] ds' log' PyNone
              Examples.env_ok Examples.world_a_ab E eq_refl eq_refl)
    as (H1 & H2 & H3).
  split; [exact H1|]. split; [exact H2|exact H3].
Defined.

(** C9 as stated fails: the merge of one staged row into an empty
    production table inserts that row, and what the call hands back is
    None, not the count 1. *)
Lemma load_staging_to_production_returns_none_not_count :
  let '(ds', _, out) :=
    Examples.bq_load (Examples.bq_dataset [Examples.bq_row "c1"]) in
  List.length (production ds') = 1%nat
  /\ out = Returned PyNone
  /\ out <> Returned (PyInt 1).
Proof. vm_compute. repeat split. discriminate. Qed.

(** C3, on the code: starting from an empty production table, which
    satisfies the invariant, (1) two staged rows with the same crime id
    and month are both inserted, so the key is no longer unique, and
    (2) a staged row without latitude is inserted as it is. *)
Theorem load_staging_to_production_breaks_invariant :
  valid_store []
  /\ (let '(ds', _, out) :=
        Examples.bq_load
          (Examples.bq_dataset [Examples.bq_row "c1"; Examples.bq_row "c1"]) in
      out = Returned PyNone
      /\ List.length (production ds') = 2%nat
      /\ ~ NoDup (map key (production ds'))
      /\ ~ valid_store (production ds'))
  /\ (let '(ds', _, out) :=
        Examples.bq_load
          (Examples.bq_dataset [Examples.bq_row_no_latitude "c2"]) in
      out = Returned PyNone
      /\ map Production.latitude (production ds') = [None]
      /\ ~ valid_store (production ds')).
Proof.
  split; [split; constructor|].
  split.
  - vm_compute. split; [reflexivity|]. split; [reflexivity|].
    assert (Hd : forall (k : option string * option DATE), ~ NoDup [k; k]).
    { intros k H. inversion H as [|? ? Hn _]. apply Hn. left. reflexivity. }
    split; [apply Hd|]. intros [_ H]. revert H. apply Hd.
  - vm_compute. split; [reflexivity|]. split; [reflexivity|].
    intros [H _]. inversion H as [|? ? Hr _]. discriminate Hr.
Qed.

(** *** What a merge adds *)

Section Merge.

Variable PARSE_DATE_Ym : string -> option DATE.
Variable ST_GEOGPOINT : FLOAT64 -> FLOAT64 -> option GEOGRAPHY.
Variable str_of_exn : exn -> string.

Lemma all_rows_length {A B} (f : A -> option B) l : forall ys,
  all_rows f l = Some ys -> List.length ys = List.length l.
Proof.
  induction l as [|x l IH]; intros ys H; simpl in H.
  - injection H as <-. reflexivity.
  - destruct (f x); [|discriminate].
    destruct (all_rows f l) as [ys0|]; [|discriminate].
    injection H as <-. simpl. rewrite (IH ys0 eq_refl). reflexivity.
Qed.

Lemma all_rows_image {A B} (f : A -> option B) l : forall ys x,
  all_rows f l = Some ys -> In x l -> exists y, f x = Some y /\ In y ys.
Proof.
  induction l as [|x0 l IH]; intros ys x H Hin; [destruct Hin|].
  simpl in H. destruct (f x0) as [y0|] eqn:Fx; [|discriminate].
  destruct (all_rows f l) as [ys0|]; [|discriminate].
  injection H as <-. destruct Hin as [<-|Hin].
  - exists y0. split; [exact Fx|left; reflexivity].
  - destruct (IH ys0 x eq_refl Hin) as (y & Hy & Hin').
    exists y. split; [exact Hy|right; exact Hin'].
Qed.

(** the dataset after a merge that the service does not interrupt *)
Lemma load_staging_to_production_done ds log0 rows src :
  staging ds = Some rows ->
  stage PARSE_DATE_Ym ST_GEOGPOINT rows = Some src ->
  load_staging_to_production PARSE_DATE_Ym ST_GEOGPOINT None ds log0
  = ({| staging := staging ds;
        production := (production ds ++ inserted (production ds) src)%list |},
     (log0 ++
        [(INFO, "Starting query job to load data from staging to production...");
         (INFO, "Data successfully loaded into production table.")])%list,
     Returned PyNone).
Proof.
  intros Hs Hst. unfold load_staging_to_production.
  rewrite Hs, Hst, <- app_assoc. reflexivity.
Qed.

(** X14: run twice on the same staging content, all of whose selected
    rows have a month, the merge leaves the production table as the
    first run left it: the second run inserts nothing. *)
Theorem merge_twice_is_merge_once ds log0 rows src ds1 log1 out1 ds2 log2 out2 :
  staging ds = Some rows ->
  stage PARSE_DATE_Ym ST_GEOGPOINT rows = Some src ->
  (forall p, In p src -> Production.month_year p <> None) ->
  load_staging_to_production PARSE_DATE_Ym ST_GEOGPOINT None ds log0
    = (ds1, log1, out1) ->
  load_staging_to_production PARSE_DATE_Ym ST_GEOGPOINT None ds1 log1
    = (ds2, log2, out2) ->
  out1 = Returned PyNone /\ out2 = Returned PyNone
  /\ production ds2 = production ds1.
Proof.
  intros Hs Hst Hm H1 H2.
  rewrite (load_staging_to_production_done ds log0 Hs Hst) in H1.
  injection H1 as <- <- <-.
  rewrite (@load_staging_to_production_done _ _ rows src) in H2;
    [|exact Hs|exact Hst].
  injection H2 as <- _ <-. cbn [production].
  split; [reflexivity|]. split; [reflexivity|].
  rewrite inserted_twice_nothing; [apply app_nil_r|].
  intros p Hp. split; [|apply Hm; exact Hp].
  apply (@stage_rows_have_id_and_longitude _ _ _ _ _ Hst Hp).
Qed.

Lemma key_eq_merge_on q p :
  key q = key p ->
  Production.crime_id p <> None -> Production.month_year p <> None ->
  merge_on q p = true.
Proof.
  unfold key, merge_on. intros E Hc Hm. injection E as -> ->.
  destruct (Production.crime_id p); [|contradiction].
  destruct (Production.month_year p); [|contradiction].
  cbn. rewrite String.eqb_refl, date_eqb_refl. reflexivity.
Qed.

Lemma NoDup_map_filter {A B} (g : A -> B) (f : A -> bool) l :
  NoDup (map g l) -> NoDup (map g (filter f l)).
Proof.
  induction l as [|x l IH]; intros H; simpl; [constructor|].
  inversion H as [|? ? Hn Hnd]; subst.
  destruct (f x); simpl; [|apply IH; exact Hnd].
  constructor; [|apply IH; exact Hnd].
  intros Hin. apply Hn. apply in_map_iff in Hin.
  destruct Hin as (y & E & Hy). apply filter_In in Hy.
  apply in_map_iff. exists y. split; [exact E|apply Hy].
Qed.

(** X15: when the keys of the production table are pairwise distinct,
    and so are the keys of the selected staging rows, all of which have
    a month, the keys of the production table are pairwise distinct
    after the merge. *)
Theorem merge_keeps_keys_distinct ds log0 rows src ds' log' out :
  staging ds = Some rows ->
  stage PARSE_DATE_Ym ST_GEOGPOINT rows = Some src ->
  NoDup (map key (production ds)) ->
  NoDup (map key src) ->
  (forall p, In p src -> Production.month_year p <> None) ->
  load_staging_to_production PARSE_DATE_Ym ST_GEOGPOINT None ds log0
    = (ds', log', out) ->
  NoDup (map key (production ds')).
Proof.
  intros Hs Hst Hprod Hsrc Hm H.
  rewrite (load_staging_to_production_done ds log0 Hs Hst) in H.
  injection H as <- _ _. cbn [production]. rewrite map_app.
  apply NoDup_app.
  - exact Hprod.
  - unfold inserted. apply NoDup_map_filter. exact Hsrc.
  - intros k Hk1 Hk2.
    apply in_map_iff in Hk1. destruct Hk1 as (q & Eq & Hq).
    apply in_map_iff in Hk2. destruct Hk2 as (p & Ep & Hp).
    destruct (inserted_not_matched _ _ _ Hp) as [Hin Hno].
    assert (merge_on q p = true).
    { apply key_eq_merge_on; [congruence| |apply Hm; exact Hin].
      apply (@stage_rows_have_id_and_longitude
               PARSE_DATE_Ym ST_GEOGPOINT _ _ _ Hst Hin). }
    rewrite (Hno q Hq) in *. discriminate.
Qed.

(** X16: a merge only appends: the production rows of before are the
    first rows of after, unchanged.  It adds at most one row per staging
    row, and every row it adds has a crime id and a longitude and
    matches no production row of before on the key. *)
Theorem merge_only_appends ds log0 rows src ds' log' out :
  staging ds = Some rows ->
  stage PARSE_DATE_Ym ST_GEOGPOINT rows = Some src ->
  load_staging_to_production PARSE_DATE_Ym ST_GEOGPOINT None ds log0
    = (ds', log', out) ->
  exists added,
    production ds' = (production ds ++ added)%list
    /\ staging ds' = staging ds
    /\ (List.length added <= List.length rows)%nat
    /\ forall p, In p added ->
         Production.crime_id p <> None /\ Production.longitude p <> None
         /\ forall q, In q (production ds) -> merge_on q p = false.
Proof.
  intros Hs Hst H.
  rewrite (load_staging_to_production_done ds log0 Hs Hst) in H.
  injection H as <- _ _. exists (inserted (production ds) src).
  split; [reflexivity|]. split; [reflexivity|]. split.
  - unfold inserted. eapply Nat.le_trans; [apply filter_length_le|].
    unfold stage in Hst. rewrite (all_rows_length _ _ Hst).
    apply filter_length_le.
  - intros p Hp. destruct (inserted_not_matched _ _ _ Hp) as [Hin Hno].
    destruct (@stage_rows_have_id_and_longitude
                PARSE_DATE_Ym ST_GEOGPOINT _ _ _ Hst Hin) as [Hc Hl].
    split; [exact Hc|]. split; [exact Hl|exact Hno].
Qed.

(** X17: a staging row that has a crime id and a longitude but no month
    is inserted by every merge that succeeds, whatever the production
    table already holds: its month_year is NULL, and NULL matches no key. *)
Theorem merge_inserts_null_month_every_time ds log0 rows src s ds' log' out :
  staging ds = Some rows ->
  stage PARSE_DATE_Ym ST_GEOGPOINT rows = Some src ->
  In s rows -> stage_where s = true -> Staging.month s = None ->
  load_staging_to_production PARSE_DATE_Ym ST_GEOGPOINT None ds log0
    = (ds', log', out) ->
  exists p added,
    stage_row PARSE_DATE_Ym ST_GEOGPOINT s = Some p
    /\ Production.month_year p = None
    /\ production ds' = (production ds ++ added)%list
    /\ In p added.
Proof.
  intros Hs Hst Hin Hw Hm H.
  rewrite (load_staging_to_production_done ds log0 Hs Hst) in H.
  injection H as <- _ _.
  assert (Hf : In s (filter stage_where rows)) by (apply filter_In; split; assumption).
  destruct (all_rows_image _ _ _ Hst Hf) as (p & Hp & Hps).
  assert (Hnull : Production.month_year p = None).
  { unfold stage_row in Hp. rewrite Hm in Hp.
    destruct (match Staging.longitude s, Staging.latitude s with
              | Some lon, Some lat => option_map Some (ST_GEOGPOINT lon lat)
              | _, _ => Some None end); [|discriminate].
    injection Hp as <-. reflexivity. }
  exists p, (inserted (production ds) src).
  split; [exact Hp|]. split; [exact Hnull|]. split; [reflexivity|].
  unfold inserted. apply filter_In. split; [exact Hps|].
  unfold not_matched. apply negb_true_iff.
  destruct (existsb (fun q => merge_on q p) (production ds)) eqn:E; [|reflexivity].
  apply existsb_exists in E. destruct E as (q & _ & Hq).
  unfold merge_on in Hq. rewrite Hnull in Hq.
  destruct (Production.crime_id q), (Production.crime_id p),
    (Production.month_year q); cbn in Hq;
    try destruct (String.eqb _ _); discriminate.
Qed.

(** X18: the script deletes the staging table only after a merge that
    returned.  When the merge raises, both tables are what they were and
    one error is logged, "Failed to load data from staging to
    production: " followed by the text of the exception.  When the merge
    returns, the deletion is attempted: if it is not interrupted the
    staging table is gone, production holds the merged rows and the
    deletion is logged with the id of the staging table; if it is
    interrupted both tables stay as the merge left them and the error is
    logged with the table id and the text of the exception. *)
Theorem load_then_delete_outcomes staging_table_id merge_fault delete_fault ds log0 :
  (forall ds1 log1 e,
     load_staging_to_production PARSE_DATE_Ym ST_GEOGPOINT merge_fault ds log0
       = (ds1, log1, Raised e) ->
     load_then_delete PARSE_DATE_Ym ST_GEOGPOINT str_of_exn
       staging_table_id merge_fault delete_fault ds log0
     = (ds,
        (log1 ++ [(ERROR,
           ("Failed to load data from staging to production: "
            ++ str_of_exn e)%string)])%list))
  /\ (forall ds1 log1 v,
        load_staging_to_production PARSE_DATE_Ym ST_GEOGPOINT merge_fault ds log0
          = (ds1, log1, Returned v) ->
        delete_fault = None ->
        load_then_delete PARSE_DATE_Ym ST_GEOGPOINT str_of_exn
          staging_table_id merge_fault delete_fault ds log0
        = ({| staging := None; production := production ds1 |},
           (log1 ++ [(INFO,
              ("Staging table '" ++ staging_table_id
               ++ "' successfully deleted.")%string)])%list))
  /\ (forall ds1 log1 v msg,
        load_staging_to_production PARSE_DATE_Ym ST_GEOGPOINT merge_fault ds log0
          = (ds1, log1, Returned v) ->
        delete_fault = Some msg ->
        load_then_delete PARSE_DATE_Ym ST_GEOGPOINT str_of_exn
          staging_table_id merge_fault delete_fault ds log0
        = (ds1,
           (log1 ++ [(ERROR,
              ("Failed to delete staging table '" ++ staging_table_id
               ++ "': " ++ msg)%string)])%list)).
Proof.
  split; [|split].
  - intros ds1 log1 e H. unfold load_then_delete. rewrite H.
    unfold load_staging_to_production in H.
    destruct merge_fault; [injection H as <- _ _; reflexivity|].
    destruct (staging ds); [|injection H as <- _ _; reflexivity].
    destruct (stage _ _ _); [discriminate|injection H as <- _ _; reflexivity].
  - intros ds1 log1 v H ->. unfold load_then_delete. rewrite H.
    unfold delete_staging_table.
    unfold load_staging_to_production in H.
    destruct merge_fault; [discriminate|].
    destruct (staging ds) eqn:Es; [|discriminate].
    destruct (stage _ _ _); [|discriminate].
    injection H as <- _ _. cbn [staging production]. reflexivity.
  - intros ds1 log1 v msg H ->. unfold load_then_delete. rewrite H.
    reflexivity.
Qed.

End Merge.

Lemma merge_twice_is_merge_once_example :
  Returned PyNone = Returned PyNone /\ Returned PyNone = Returned PyNone
  /\ production
       (fst (fst (BigQuery.load_staging_to_production parse_date_Ym st_geogpoint None
                    (fst (fst (Examples.bq_load
                                 (Examples.bq_dataset [Examples.bq_row "c1"]))))
                    (snd (fst (Examples.bq_load
                                 (Examples.bq_dataset [Examples.bq_row "c1"])))))))
     = production
         (fst (fst (Examples.bq_load (Examples.bq_dataset [Examples.bq_row "c1"])))).
Proof.
  eapply (@merge_twice_is_merge_once parse_date_Ym st_geogpoint
            (Examples.bq_dataset [Examples.bq_row "c1"]) []
            [Examples.bq_row "c1"]).
  - reflexivity.
  - vm_compute. reflexivity.
  - intros p [<-|[]]. discriminate.
  - vm_compute. reflexivity.
  - vm_compute. reflexivity.
Defined.

Lemma merge_keeps_keys_distinct_example :
  NoDup (map key
           (production
              (fst (fst (Examples.bq_load
                           (Examples.bq_dataset
                              [Examples.bq_row "c1"; Examples.bq_row "c2"])))))).
Proof.
  eapply (@merge_keeps_keys_distinct parse_date_Ym st_geogpoint
            (Examples.bq_dataset [Examples.bq_row "c1"; Examples.bq_row "c2"]) []
            [Examples.bq_row "c1"; Examples.bq_row "c2"]).
  - reflexivity.
  - vm_compute. reflexivity.
  - constructor.
  - vm_compute. repeat constructor; simpl; intuition discriminate.
  - intros p [<-|[<-|[]]]; discriminate.
  - vm_compute. reflexivity.
Defined.

Lemma merge_only_appends_example :
  exists added,
    production (fst (fst (Examples.bq_load
                            (Examples.bq_dataset [Examples.bq_row_no_latitude "c2"]))))
    = ([] ++ added)%list
    /\ staging (fst (fst (Examples.bq_load
                            (Examples.bq_dataset [Examples.bq_row_no_latitude "c2"]))))
       = Some [Examples.bq_row_no_latitude "c2"]
    /\ (List.length added <= 1)%nat
    /\ forall p, In p added ->
         Production.crime_id p <> None /\ Production.longitude p <> None
         /\ forall q, In q [] -> merge_on q p = false.
Proof.
  eapply (@merge_only_appends parse_date_Ym st_geogpoint
            (Examples.bq_dataset [Examples.bq_row_no_latitude "c2"]) []
            [Examples.bq_row_no_latitude "c2"]).
  - reflexivity.
  - vm_compute. reflexivity.
  - vm_compute. reflexivity.
Defined.

Lemma merge_inserts_null_month_every_time_example :
  exists p added,
    stage_row parse_date_Ym st_geogpoint (Examples.bq_row_no_month "c3") = Some p
    /\ Production.month_year p = None
    /\ production (fst (fst (Examples.bq_load Examples.bq_dataset_no_month)))
       = ([Examples.bq_prod_no_month "c3"] ++ added)%list
    /\ In p added.
Proof.
  eapply (@merge_inserts_null_month_every_time parse_date_Ym st_geogpoint
            Examples.bq_dataset_no_month []
            [Examples.bq_row_no_month "c3"]).
  - reflexivity.
  - vm_compute. reflexivity.
  - left. reflexivity.
  - reflexivity.
  - reflexivity.
  - vm_compute. reflexivity.
Defined.

Lemma load_then_delete_outcomes_example :
  load_then_delete parse_date_Ym st_geogpoint exn_text "crimes_staging" None None
    Examples.bq_dataset_no_staging []
  = (Examples.bq_dataset_no_staging,
     [(INFO, "Starting query job to load data from staging to production...");
      (ERROR, "Failed to load data from staging to production: 404 Not found")])
  /\ load_then_delete parse_date_Ym st_geogpoint exn_text "crimes_staging" None None
       (Examples.bq_dataset [Examples.bq_row "c1"]) []
     = ({| staging := None;
           production :=
             production
               (fst (fst (load_staging_to_production parse_date_Ym st_geogpoint None
                            (Examples.bq_dataset [Examples.bq_row "c1"]) []))) |},
        [(INFO, "Starting query job to load data from staging to production...");
         (INFO, "Data successfully loaded into production table.");
         (INFO, "Staging table 'crimes_staging' successfully deleted.")]).
Proof.
  destruct (@load_then_delete_outcomes parse_date_Ym st_geogpoint exn_text
              "crimes_staging" None None
              Examples.bq_dataset_no_staging []) as [H1 _].
  destruct (@load_then_delete_outcomes parse_date_Ym st_geogpoint exn_text
              "crimes_staging" None None
              (Examples.bq_dataset [Examples.bq_row "c1"]) []) as [_ [H2 _]].
  split.
  - apply (H1 Examples.bq_dataset_no_staging
               [(INFO, "Starting query job to load data from staging to production...")]
               NotFound).
    reflexivity.
  - apply (H2 (fst (fst (load_staging_to_production parse_date_Ym st_geogpoint None
                           (Examples.bq_dataset [Examples.bq_row "c1"]) [])))
              [(INFO, "Starting query job to load data from staging to production...");
               (INFO, "Data successfully loaded into production table.")]
              PyNone).
    + reflexivity.
    + reflexivity.
Defined.

End BigQueryProps.

(** ** Record Normalizer *)

Module NormalizerProps.

Import PyStr Normalizer Basics.

(** *** The store *)

Lemma length_update st : forall r d,
  List.length (update st r d) = List.length st.
Proof.
  induction st as [|x st IH]; intros [|r] d; simpl; try reflexivity.
  rewrite IH. reflexivity.
Qed.

Lemma deref_update_same st : forall r d,
  (r < List.length st)%nat -> deref (update st r d) r = Some d.
Proof.
  unfold deref.
  induction st as [|x st IH]; intros [|r] d H; simpl in *; try lia.
  - reflexivity.
  - apply IH. lia.
Qed.

Lemma deref_update_other st : forall r r' d,
  r <> r' -> deref (update st r d) r' = deref st r'.
Proof.
  unfold deref.
  induction st as [|x st IH]; intros [|r] [|r'] d H; simpl; try reflexivity.
  - contradiction.
  - apply IH. congruence.
Qed.

Lemma deref_alloc_old st d r :
  (r < List.length st)%nat -> deref (fst (alloc st d)) r = deref st r.
Proof. intros H. unfold deref, alloc. simpl. apply nth_error_app1. exact H. Qed.


Lemma length_alloc st d :
  List.length (fst (alloc st d)) = S (List.length st).
Proof. unfold alloc. simpl. rewrite length_app. simpl. lia. Qed.

Lemma deref_lt st r d : deref st r = Some d -> (r < List.length st)%nat.
Proof. unfold deref. intros H. apply nth_error_Some. congruence. Qed.

(** *** Rows and duplicates *)

Lemma cell_eqb_eq a b : cell_eqb a b = true <-> a = b.
Proof.
  destruct a as [x|], b as [y|]; simpl; split; intros H;
    try discriminate; try reflexivity.
  - apply String.eqb_eq in H. subst. reflexivity.
  - injection H as <-. apply String.eqb_refl.
Qed.

Lemma row_eqb_eq a : forall b, row_eqb a b = true <-> a = b.
Proof.
  induction a as [|x a IH]; intros [|y b]; simpl; split; intros H;
    try discriminate; try reflexivity.
  - apply andb_true_iff in H. destruct H as [H1 H2].
    apply cell_eqb_eq in H1. apply IH in H2. subst. reflexivity.
  - injection H as <- <-. apply andb_true_iff. split.
    + apply cell_eqb_eq. reflexivity.
    + apply IH. reflexivity.
Qed.

Lemma row_in_In r seen : row_in r seen = true <-> In r seen.
Proof.
  unfold row_in. rewrite existsb_exists. split.
  - intros (y & Hy & E). apply row_eqb_eq in E. subst. exact Hy.
  - intros H. exists r. split; [exact H|]. apply row_eqb_eq. reflexivity.
Qed.

(** what [drop_seen] keeps: each row of [l] not in [seen], once *)
Lemma drop_seen_spec l : forall seen,
  NoDup (drop_seen seen l)
  /\ forall r, In r (drop_seen seen l) <-> In r l /\ ~ In r seen.
Proof.
  induction l as [|r0 rest IH]; intros seen; simpl.
  - split; [constructor|]. intros r. tauto.
  - destruct (row_in r0 seen) eqn:E.
    + apply row_in_In in E. destruct (IH seen) as [Hnd Hin].
      split; [exact Hnd|]. intros r. rewrite Hin. split.
      * intros [H1 H2]. split; [right; exact H1|exact H2].
      * intros [[<-|H1] H2]; [contradiction|]. split; assumption.
    + assert (Hn : ~ In r0 seen).
      { intros H. apply row_in_In in H. congruence. }
      destruct (IH (r0 :: seen)) as [Hnd Hin]. split.
      * constructor; [|exact Hnd]. intros H. apply Hin in H.
        destruct H as [_ H]. apply H. left. reflexivity.
      * intros r. simpl. rewrite Hin. simpl. split.
        -- intros [<-|[H1 H2]].
           ++ split; [left; reflexivity|exact Hn].
           ++ split; [right; exact H1|]. intros H. apply H2. right. exact H.
        -- intros [[<-|H1] H2]; [left; reflexivity|].
           destruct (row_eqb r0 r) eqn:Er.
           ++ apply row_eqb_eq in Er. left. exact Er.
           ++ right. split; [exact H1|]. intros [<-|H]; [|contradiction].
              assert (row_eqb r0 r0 = true) by (apply row_eqb_eq; reflexivity).
              congruence.
Qed.


(** *** Selecting the required columns *)




(** *** The function, step by step *)




(** C7 (as amended): the call leaves every other object of the store and
    the rows of its argument as they were; on a non-empty argument it
    replaces the argument's column names by their normalised forms, in
    place, and an empty argument is left as it was. *)
Theorem format_dataframe_renames_input_columns st df d :
  deref st df = Some d ->
  deref (fst (format_dataframe st df)) df
  = Some (if empty d then d else renamed_input d)
  /\ forall r, r <> df -> (r < List.length st)%nat ->
       deref (fst (format_dataframe st df)) r = deref st r.
Proof.
  intros Hd. pose proof (@deref_lt _ _ _ Hd) as Hlt.
  unfold format_dataframe. rewrite Hd.
  destruct (empty d) eqn:He.
  { cbn [fst]. split; [exact Hd|]. intros; reflexivity. }
  cbn [columns rows]. fold (renamed_input d).
  set (st1 := update st df (renamed_input d)).
  assert (L1 : List.length st1 = List.length st) by apply length_update.
  assert (Hsame : deref st1 df = Some (renamed_input d))
    by (apply deref_update_same; exact Hlt).
  assert (Hoth : forall r, r <> df -> deref st1 r = deref st r)
    by (intros r Hr; apply deref_update_other; congruence).
  assert (Hgoal : forall st',
            (forall r, (r < List.length st)%nat -> deref st' r = deref st1 r) ->
            deref st' df = Some (renamed_input d)
            /\ forall r, r <> df -> (r < List.length st)%nat ->
                 deref st' r = deref st r).
  { intros st' H. split.
    - rewrite H by exact Hlt. exact Hsame.
    - intros r Hr Hl. rewrite H by exact Hl. apply Hoth. exact Hr. }
  destruct (filter _ SELECT_COLS) as [|missing rest].
  2:{ cbn [fst]. apply Hgoal. intros; reflexivity. }
  set (sel := select_columns SELECT_COLS (renamed_input d)).
  assert (Hst2 : forall r x, (r < List.length st)%nat ->
            deref (fst (alloc st1 x)) r = deref st1 r).
  { intros r x Hr. apply deref_alloc_old. lia. }
  unfold alloc at 1. cbn [fst snd].
  destruct (set_columns sel RENAMED_COLUMNS) as [d2|].
  2:{ cbn [fst]. apply Hgoal. intros r Hr. apply (Hst2 r sel Hr). }
  unfold alloc. cbn [fst snd]. apply Hgoal. intros r Hr.
  unfold deref.
  rewrite !nth_error_app1.
  - fold (deref (update (st1 ++ [sel])%list (List.length st1) d2) r).
    rewrite deref_update_other by lia.
    unfold deref. apply nth_error_app1. lia.
  - rewrite length_update, length_app. simpl. lia.
  - rewrite length_app, length_update, length_app. simpl. lia.
  - rewrite length_app, length_app, length_update, length_app. simpl. lia.
Qed.

(** on the raw table of the examples, the caller's table has its column
    names rewritten by the call *)
Lemma format_dataframe_renames_input_columns_raw_table :
  deref (fst (format_dataframe [Examples.raw_table] 0%nat)) 0%nat
  = Some (renamed_input Examples.raw_table)
  /\ forall r, r <> 0%nat -> (r < 1)%nat ->
       deref (fst (format_dataframe [Examples.raw_table] 0%nat)) r
       = deref [Examples.raw_table] r.
Proof.
  apply (@format_dataframe_renames_input_columns
           [Examples.raw_table] 0%nat Examples.raw_table).
  reflexivity.
Defined.

(** C7 as stated fails: after the call the table that was passed in has
    other column names than before. *)
Lemma format_dataframe_mutates_column_names :
  option_map columns (deref [Examples.raw_table] 0%nat)
  = Some ["Crime ID"; "Month"; "Falls within"; "Longitude"; "Latitude";
          "LSOA code"; "Crime type"; "Location"; "Context"]
  /\ option_map columns (deref (fst (format_dataframe [Examples.raw_table] 0%nat)) 0%nat)
     = Some ["crime_id"; "month"; "falls_within"; "longitude"; "latitude";
             "lsoa_code"; "crime_type"; "location"; "context"]
  /\ deref (fst (format_dataframe [Examples.raw_table] 0%nat)) 0%nat
     <> deref [Examples.raw_table] 0%nat.
Proof.
  split; [reflexivity|]. split; [reflexivity|].
  vm_compute. discriminate.
Qed.

(** *** Errors, shape and repetition *)

Import NormalizerSpec.

Lemma update_same st : forall r d, deref st r = Some d -> update st r d = st.
Proof.
  unfold deref. induction st as [|x st IH]; intros [|r] d H; simpl in *;
    try discriminate.
  - injection H as ->. reflexivity.
  - rewrite (IH r d H). reflexivity.
Qed.

(** every branch of the function, on an argument that is an object of
    the store *)
Lemma format_dataframe_cases st df d :
  deref st df = Some d ->
  format_dataframe st df
  = if empty d then (st, Raised ValueError_empty)
    else match missing_columns d with
         | _ :: _ =>
             (update st df (renamed_input d),
              Raised (KeyError_missing (missing_columns d)))
         | [] =>
             let st1 := update st df (renamed_input d) in
             let sel := select_columns SELECT_COLS (renamed_input d) in
             if (List.length (columns sel) =? 8)%nat
             then (((((update (st1 ++ [sel]) (List.length st1) (canonical d)
                       ++ [where_ (fun r => notna (value (canonical d) "longitude" r)
                                            && notna (value (canonical d) "latitude" r))
                                  (canonical d)])
                      ++ [where_ (fun r => notna (value (canonical d) "crime_id" r))
                            (where_ (fun r => notna (value (canonical d) "longitude" r)
                                              && notna (value (canonical d) "latitude" r))
                                    (canonical d))])
                     ++ [normalised d])%list),
                   Returned (S (S (S (List.length st1)))))
             else ((st1 ++ [sel])%list, Raised ValueError_length_mismatch)
         end.
Proof.
  intros Hd. unfold format_dataframe. rewrite Hd.
  destruct (empty d); [reflexivity|].
  cbn [columns rows]. fold (renamed_input d).
  unfold missing_columns.
  destruct (filter _ SELECT_COLS) as [|c l]; [|reflexivity].
  unfold alloc, set_columns. cbn [RENAMED_COLUMNS List.length].
  rewrite (Nat.eqb_sym 8).
  destruct (List.length (columns (select_columns SELECT_COLS (renamed_input d)))
            =? 8)%nat; [|reflexivity].
  f_equal. f_equal.
  rewrite !length_app, length_update, length_app. cbn [List.length]. lia.
Qed.

Lemma missing_columns_In d c :
  In c (missing_columns d)
  <-> In c SELECT_COLS /\ ~ In c (map normalise_column (columns d)).
Proof.
  unfold missing_columns. rewrite filter_In, negb_true_iff.
  split; intros [H1 H2]; split; try exact H1.
  - intros H. apply mem_In in H. congruence.
  - destruct (mem c (map normalise_column (columns d))) eqn:E; [|reflexivity].
    apply mem_In in E. contradiction.
Qed.

(** X9: an empty table raises ValueError and nothing in the store
    changes.  A non-empty table that lacks a required column raises
    KeyError with exactly the required columns that its normalised names
    lack, and by then the column names of the caller's table have
    already been rewritten. *)
Theorem format_dataframe_errors st df d :
  deref st df = Some d ->
  (empty d = true -> format_dataframe st df = (st, Raised ValueError_empty))
  /\ (empty d = false ->
      forall c0, In c0 SELECT_COLS ->
                 ~ In c0 (map normalise_column (columns d)) ->
      exists missing,
        format_dataframe st df
        = (update st df (renamed_input d), Raised (KeyError_missing missing))
        /\ (forall c, In c missing <->
                      In c SELECT_COLS
                      /\ ~ In c (map normalise_column (columns d)))
        /\ deref (fst (format_dataframe st df)) df = Some (renamed_input d)).
Proof.
  intros Hd. rewrite (format_dataframe_cases _ _ Hd). split.
  - intros ->. reflexivity.
  - intros -> c0 Hc0 Hn.
    assert (Hin : In c0 (missing_columns d))
      by (apply missing_columns_In; split; assumption).
    exists (missing_columns d).
    destruct (missing_columns d) as [|c l] eqn:E; [destruct Hin|].
    split; [reflexivity|]. split.
    + intros c'. rewrite <- E. apply missing_columns_In.
    + cbn [fst]. apply deref_update_same. eapply deref_lt. exact Hd.
Qed.

Lemma format_dataframe_errors_example :
  format_dataframe [mkdf ["Crime ID"] []] 0%nat
  = ([mkdf ["Crime ID"] []], Raised ValueError_empty)
  /\ exists missing,
       format_dataframe [mkdf ["Crime ID"; "Month"] [[Some "a"; None]]] 0%nat
       = ([mkdf ["crime_id"; "month"] [[Some "a"; None]]],
          Raised (KeyError_missing missing))
       /\ In "longitude" missing.
Proof.
  split.
  - apply (@format_dataframe_errors [mkdf ["Crime ID"] []] 0%nat
             (mkdf ["Crime ID"] []) eq_refl).
    reflexivity.
  - destruct (@format_dataframe_errors
                [mkdf ["Crime ID"; "Month"] [[Some "a"; None]]] 0%nat
                (mkdf ["Crime ID"; "Month"] [[Some "a"; None]]) eq_refl)
      as [_ H].
    destruct (H eq_refl "longitude") as (missing & Hrun & Hin & _).
    + vm_compute. tauto.
    + vm_compute. intros [E|[E|[]]]; discriminate E.
    + exists missing. split; [exact Hrun|].
      apply Hin. split.
      * vm_compute. tauto.
      * vm_compute. intros [E|[E|[]]]; discriminate E.
Defined.

(** [normalise_column] works character by character *)
Lemma normalise_column_cons c s :
  normalise_column (String c s) = String (normalise_char c) (normalise_column s).
Proof.
  unfold normalise_column, replace, normalise_char.
  cbn [replace_from startswith String.length Nat.sub].
  rewrite Ascii.eqb_sym. destruct (Ascii.eqb c " "); reflexivity.
Qed.

Lemma normalise_char_idem c : normalise_char (normalise_char c) = normalise_char c.
Proof. destruct c as [[] [] [] [] [] [] [] []]; reflexivity. Qed.

Lemma normalise_column_idem s :
  normalise_column (normalise_column s) = normalise_column s.
Proof.
  induction s as [|c s IH]; [reflexivity|].
  rewrite !normalise_column_cons, normalise_char_idem, IH. reflexivity.
Qed.

(** X10: normalising a column name twice gives what normalising it once
    gives, so a table whose columns the function has rewritten is not
    changed by rewriting them again. *)
Theorem normalise_column_idempotent :
  (forall col, normalise_column (normalise_column col) = normalise_column col)
  /\ (forall d, renamed_input (renamed_input d) = renamed_input d).
Proof.
  split; [exact normalise_column_idem|].
  intros d. unfold renamed_input. cbn [columns rows]. f_equal.
  rewrite map_map. apply map_ext. exact normalise_column_idem.
Qed.

(** X11: the function cannot be applied to a table it has produced: on a
    non-empty table with the canonical column names it raises KeyError
    for month, falls_within and location, and leaves the store as it was. *)
Theorem format_dataframe_rejects_its_output st df d :
  deref st df = Some d ->
  columns d = RENAMED_COLUMNS ->
  empty d = false ->
  format_dataframe st df
  = (st, Raised (KeyError_missing ["month"; "falls_within"; "location"])).
Proof.
  intros Hd Hc He. rewrite (format_dataframe_cases _ _ Hd), He.
  assert (Hr : renamed_input d = d).
  { destruct d as [cols rs]. cbn [columns] in Hc. subst cols. reflexivity. }
  unfold missing_columns. rewrite Hc, Hr. cbn.
  rewrite (update_same _ _ Hd). reflexivity.
Qed.

Lemma format_dataframe_rejects_its_output_example :
  format_dataframe
    [mkdf RENAMED_COLUMNS
       [[Some "a"; Some "2023-07"; Some "L"; Some "-2.5"; Some "53.8"; None;
         Some "Burglary"; Some "High Street"]]] 0%nat
  = ([mkdf RENAMED_COLUMNS
        [[Some "a"; Some "2023-07"; Some "L"; Some "-2.5"; Some "53.8"; None;
          Some "Burglary"; Some "High Street"]]],
     Raised (KeyError_missing ["month"; "falls_within"; "location"])).
Proof.
  apply (@format_dataframe_rejects_its_output
           [mkdf RENAMED_COLUMNS
              [[Some "a"; Some "2023-07"; Some "L"; Some "-2.5"; Some "53.8"; None;
                Some "Burglary"; Some "High Street"]]] 0%nat
           (mkdf RENAMED_COLUMNS
              [[Some "a"; Some "2023-07"; Some "L"; Some "-2.5"; Some "53.8"; None;
                Some "Burglary"; Some "High Street"]]));
    reflexivity.
Defined.

(** a table that is handed back is the normalised input *)
Lemma format_dataframe_returned st df st' out :
  format_dataframe st df = (st', Returned out) ->
  exists d,
    deref st df = Some d /\ empty d = false /\ missing_columns d = []
    /\ List.length (columns (select_columns SELECT_COLS (renamed_input d))) = 8%nat
    /\ deref st' out = Some (normalised d)
    /\ out = (List.length st + 3)%nat.
Proof.
  intros H. destruct (deref st df) as [d|] eqn:Hd.
  2:{ unfold format_dataframe in H. rewrite Hd in H. discriminate. }
  rewrite (format_dataframe_cases _ _ Hd) in H.
  exists d. split; [reflexivity|].
  destruct (empty d); [discriminate|]. split; [reflexivity|].
  destruct (missing_columns d); [|discriminate]. split; [reflexivity|].
  cbv zeta in H.
  destruct (List.length (columns (select_columns SELECT_COLS (renamed_input d)))
            =? 8)%nat eqn:E; [|discriminate].
  apply Nat.eqb_eq in E. split; [exact E|].
  injection H as <- <-. rewrite length_update. split; [|lia].
  unfold deref. rewrite nth_error_app2.
  - rewrite !length_app, length_update, length_app, length_update.
    cbn [List.length].
    replace (S (S (S (List.length st)))
             - (List.length st + 1 + 1 + 1))%nat with 0%nat by lia.
    reflexivity.
  - rewrite !length_app, length_update, length_app, length_update.
    cbn [List.length]. lia.
Qed.

Lemma length_drop_seen l : forall seen,
  (List.length (drop_seen seen l) <= List.length l)%nat.
Proof.
  induction l as [|r l IH]; intros seen; simpl; [lia|].
  destruct (row_in r seen); simpl.
  - specialize (IH seen). lia.
  - specialize (IH (r :: seen)). lia.
Qed.

Lemma length_picked_rows labels d r :
  In r (rows (select_columns labels d)) ->
  List.length r = List.length (columns (select_columns labels d)).
Proof.
  unfold select_columns. cbn [rows columns]. intros H.
  apply in_map_iff in H. destruct H as (r0 & <- & _).
  rewrite !length_map. reflexivity.
Qed.

(** X12: a table that is handed back is a new object of the store, has
    the eight canonical columns, holds eight cells in every row, and has
    at most as many rows as the input. *)
Theorem format_dataframe_output_shape st df st' out :
  format_dataframe st df = (st', Returned out) ->
  exists d o,
    deref st df = Some d /\ deref st' out = Some o
    /\ (List.length st <= out)%nat
    /\ columns o = RENAMED_COLUMNS
    /\ (forall r, In r (rows o) -> List.length r = 8%nat)
    /\ (List.length (rows o) <= List.length (rows d))%nat.
Proof.
  intros H.
  destruct (format_dataframe_returned _ _ H) as (d & Hd & _ & _ & Hlen & Ho & Hout).
  exists d, (normalised d).
  split; [exact Hd|]. split; [exact Ho|]. split; [lia|]. split; [reflexivity|].
  split.
  - intros r Hr. unfold normalised in Hr. cbn [drop_duplicates rows] in Hr.
    apply (drop_seen_spec _ []) in Hr. destruct Hr as [Hr _].
    cbn [where_ rows canonical] in Hr.
    apply filter_In in Hr. destruct Hr as [Hr _].
    apply filter_In in Hr. destruct Hr as [Hr _].
    rewrite (length_picked_rows _ _ _ Hr). exact Hlen.
  - unfold normalised. cbn [drop_duplicates rows where_ canonical].
    eapply Nat.le_trans; [apply length_drop_seen|].
    eapply Nat.le_trans; [apply filter_length_le|].
    eapply Nat.le_trans; [apply filter_length_le|].
    unfold select_columns. cbn [rows]. rewrite length_map. cbn [renamed_input rows].
    lia.
Qed.

Lemma format_dataframe_output_shape_example :
  exists d o,
    deref [Examples.raw_table] 0%nat = Some d
    /\ deref (fst (format_dataframe [Examples.raw_table] 0%nat)) 4%nat = Some o
    /\ (1 <= 4)%nat
    /\ columns o = RENAMED_COLUMNS
    /\ (forall r, In r (rows o) -> List.length r = 8%nat)
    /\ (List.length (rows o) <= List.length (rows d))%nat.
Proof.
  apply (@format_dataframe_output_shape
           [Examples.raw_table] 0%nat
           (fst (format_dataframe [Examples.raw_table] 0%nat)) 4%nat).
  vm_compute. reflexivity.
Defined.

Lemma drop_seen_fixed l : forall seen,
  NoDup l -> (forall r, In r l -> ~ In r seen) -> drop_seen seen l = l.
Proof.
  induction l as [|r l IH]; intros seen Hnd Hdis; simpl; [reflexivity|].
  inversion Hnd as [|? ? Hn Hnd']; subst.
  destruct (row_in r seen) eqn:E.
  - apply row_in_In in E. exfalso. apply (Hdis r); [left; reflexivity|exact E].
  - f_equal. apply IH; [exact Hnd'|].
    intros r' Hr' [<-|H]; [contradiction|].
    apply (Hdis r'); [right; exact Hr'|exact H].
Qed.

(** X13: dropping duplicates twice gives what dropping them once gives,
    and a table in which no row occurs twice is left as it is. *)
Theorem drop_duplicates_idempotent d :
  drop_duplicates (drop_duplicates d) = drop_duplicates d
  /\ (NoDup (rows d) -> drop_duplicates d = d).
Proof.
  split.
  - unfold drop_duplicates. cbn [columns rows]. f_equal.
    destruct (drop_seen_spec (rows d) []) as [Hnd _].
    apply drop_seen_fixed; [exact Hnd|]. intros r _ [].
  - intros Hnd. destruct d as [cols rs]. unfold drop_duplicates.
    cbn [columns rows] in *. f_equal.
    apply drop_seen_fixed; [exact Hnd|]. intros r _ [].
Qed.

Lemma drop_duplicates_idempotent_example :
  drop_duplicates (drop_duplicates (mkdf ["x"] [[Some "1"]; [Some "1"]; [None]]))
  = drop_duplicates (mkdf ["x"] [[Some "1"]; [Some "1"]; [None]])
  /\ drop_duplicates (mkdf ["x"] [[Some "1"]; [None]])
     = mkdf ["x"] [[Some "1"]; [None]].
Proof.
  split.
  - apply (@drop_duplicates_idempotent (mkdf ["x"] [[Some "1"]; [Some "1"]; [None]])).
  - apply (@drop_duplicates_idempotent (mkdf ["x"] [[Some "1"]; [None]])).
    cbn [rows]. repeat constructor; simpl; intuition discriminate.
Defined.

End NormalizerProps.
(** ** Reorganised files and the catalog *)

Module ReorganiseProps.

Import PyStr Chars Reorganise Basics CatalogProps.

Lemma split_one sep s : forall b, split sep s = [b] -> s = b.
Proof.
  induction s as [|c s IH]; intros b H; simpl in H.
  - injection H as <-. reflexivity.
  - destruct (Ascii.eqb c sep).
    + pose proof (@split_nonempty sep s) as Hne.
      destruct (split sep s); [contradiction|discriminate].
    + destruct (split sep s) as [|h t] eqn:E;
        [exfalso; apply (@split_nonempty sep s); exact E|].
      injection H as <- ->. rewrite (IH h eq_refl). reflexivity.
Qed.

Lemma split_two sep s : forall a b,
  split sep s = [a; b] -> s = a ++ String sep b.
Proof.
  induction s as [|c s IH]; intros a b H; simpl in H; [discriminate|].
  destruct (Ascii.eqb c sep) eqn:Ec.
  - injection H as <- H. apply Ascii.eqb_eq in Ec. subst c.
    rewrite (split_one _ _ H). reflexivity.
  - destruct (split sep s) as [|h t] eqn:E; [discriminate|].
    injection H as <- ->. rewrite (IH h b eq_refl). reflexivity.
Qed.

Lemma split_pieces sep s : forall x,
  In x (split sep s) -> has_char sep x = false.
Proof.
  induction s as [|c s IH]; intros x H; simpl in H.
  - destruct H as [<-|[]]. reflexivity.
  - destruct (Ascii.eqb c sep) eqn:Ec.
    + destruct H as [<-|H]; [reflexivity|apply IH; exact H].
    + destruct (split sep s) as [|h t] eqn:E.
      * destruct H as [<-|[]]. simpl. rewrite Ec. reflexivity.
      * destruct H as [<-|H].
        -- simpl. rewrite Ec. apply IH. left. reflexivity.
        -- apply IH. right. exact H.
Qed.

Lemma split_year_month_spec year_month year month :
  split_year_month year_month = Some (year, month)
  <-> year_month = year ++ "-" ++ month
      /\ has_char "-"%char year = false /\ has_char "-"%char month = false.
Proof.
  unfold split_year_month. split.
  - intros H.
    destruct (split "-"%char year_month) as [|a [|b [|c l]]] eqn:E; try discriminate.
    injection H as -> ->. split; [apply (split_two _ _ E)|].
    split; apply (@split_pieces "-"%char year_month); rewrite E; simpl; tauto.
  - intros (-> & Hy & Hm).
    change (year ++ "-" ++ month) with (year ++ String "-"%char month).
    rewrite split_app_sep, (split_no_sep _ _ Hy), (split_no_sep _ _ Hm).
    reflexivity.
Qed.

(** X24: a folder is processed exactly when its name is two texts
    without a dash joined by one dash, which are then the year and the
    month; a name with no dash or with several is skipped. *)
Theorem split_year_month_iff year_month year month :
  split_year_month year_month = Some (year, month)
  <-> year_month = year ++ "-" ++ month
      /\ has_char "-"%char year = false /\ has_char "-"%char month = false.
Proof. exact (split_year_month_spec year_month year month). Qed.

Lemma split_year_month_iff_example :
  split_year_month "2022-07" = Some ("2022", "07")
  /\ split_year_month "2022-07-01" = None.
Proof.
  split.
  - apply (@split_year_month_iff "2022-07" "2022" "07"). repeat split.
  - reflexivity.
Defined.

Lemma has_char_rev_onto c s : forall acc,
  has_char c (rev_onto s acc) = has_char c s || has_char c acc.
Proof.
  induction s as [|x s IH]; intros acc; simpl; [reflexivity|].
  rewrite IH. simpl. destruct (Ascii.eqb x c), (has_char c s), (has_char c acc);
    reflexivity.
Qed.

Lemma reverse_cons c s : reverse (String c s) = reverse s ++ String c "".
Proof. unfold reverse. simpl. apply rev_onto_app_acc. Qed.

Lemma reverse_involutive s : reverse (reverse s) = s.
Proof.
  induction s as [|c s IH]; [reflexivity|].
  rewrite reverse_cons, reverse_app, IH. reflexivity.
Qed.

Lemma endswith_slash_inv a :
  endswith "/" a = true -> exists a', a = a' ++ "/".
Proof.
  unfold endswith. intros H.
  destruct (reverse a) as [|c r] eqn:E; [discriminate|].
  change (reverse "/") with "/" in H. cbn [startswith] in H.
  apply andb_true_iff in H. destruct H as [H _]. apply Ascii.eqb_eq in H. subst c.
  exists (reverse r). rewrite <- (reverse_involutive a), E, reverse_cons. reflexivity.
Qed.

(** a path that ends with a component without a slash does not end
    with a slash *)
Lemma not_endswith_slash x y :
  y <> "" -> has_char "/"%char y = false -> endswith "/" (x ++ y) = false.
Proof.
  intros Hne Hy. unfold endswith. rewrite reverse_app.
  change (reverse "/") with "/".
  destruct (reverse y) as [|d r] eqn:E.
  - exfalso. apply Hne. rewrite <- (reverse_involutive y), E. reflexivity.
  - cbn [append startswith].
    assert (Hd : has_char "/"%char (reverse y) = false).
    { unfold reverse. rewrite has_char_rev_onto, Hy. reflexivity. }
    rewrite E in Hd. simpl in Hd. apply orb_false_iff in Hd. destruct Hd as [Hd _].
    rewrite Ascii.eqb_sym, Hd. reflexivity.
Qed.

Lemma not_startswith_slash y :
  has_char "/"%char y = false -> startswith "/" y = false.
Proof.
  destruct y as [|c y]; [reflexivity|]. cbn [has_char startswith]. intros H.
  apply orb_false_iff in H. destruct H as [H _].
  rewrite Ascii.eqb_sym, H. reflexivity.
Qed.

Lemma length_app_nonempty x y : y <> "" -> (String.length (x ++ y) =? 0)%nat = false.
Proof.
  intros H. destruct x as [|c x]; [|reflexivity].
  destruct y; [contradiction|reflexivity].
Qed.

(** joining a component without a slash puts it last *)
Lemma path_join_component a y :
  y <> "" -> has_char "/"%char y = false ->
  exists x pre,
    path_join a y = x ++ y /\ split "/"%char (path_join a y) = (pre ++ [y])%list.
Proof.
  intros Hne Hy. unfold path_join. rewrite (not_startswith_slash _ Hy).
  destruct (String.length a =? 0)%nat eqn:L.
  - destruct a; [|discriminate]. exists "", []. cbn [orb append app].
    split; [reflexivity|apply split_no_sep; exact Hy].
  - cbn [orb]. destruct (endswith "/" a) eqn:E.
    + destruct (endswith_slash_inv _ E) as [a' ->].
      exists (a' ++ "/"), (split "/"%char a'). split; [reflexivity|].
      rewrite append_assoc. change ("/" ++ y) with (String "/"%char y).
      rewrite split_app_sep, (split_no_sep _ _ Hy). reflexivity.
    + exists (a ++ "/"), (split "/"%char a). split.
      * rewrite append_assoc. reflexivity.
      * change ("/" ++ y) with (String "/"%char y).
        rewrite split_app_sep, (split_no_sep _ _ Hy). reflexivity.
Qed.

(** X25: the catalog reads a reorganised file back under the name of
    the folder it came from: for a folder name without a slash that
    splits into a non-empty year and a month without a dot, the path the
    file is written to, whatever the output folder and the file name
    are, gives the folder name as its year-month. *)
Theorem reorganised_file_is_read_back
  output_folder year_month region_file year month :
  has_char "/"%char year_month = false ->
  split_year_month year_month = Some (year, month) ->
  year <> "" ->
  has_char "."%char month = false ->
  exists p,
    new_region_file output_folder year_month region_file = Some p
    /\ Catalog.month_year_of p = Some year_month.
Proof.
  intros Hslash Hsplit Hne Hdot.
  unfold new_region_file. rewrite Hsplit.
  apply split_year_month_spec in Hsplit. destruct Hsplit as (-> & Hy & Hm).
  rewrite has_char_app in Hslash.
  apply orb_false_iff in Hslash. destruct Hslash as [Sy Sm].
  change ("-" ++ month) with (String "-"%char month) in Sm.
  cbn [has_char] in Sm. apply orb_false_iff in Sm. destruct Sm as [_ Sm].
  eexists. split; [reflexivity|].
  unfold new_region_folder.
  destruct (path_join_component
              (path_join output_folder (region_of (year ++ "-" ++ month) region_file))
              Hne Sy) as (x & pre & Ex & Esplit).
  set (folder := path_join
                   (path_join output_folder
                      (region_of (year ++ "-" ++ month) region_file)) year) in *.
  assert (Hfile : has_char "/"%char (month ++ ".csv") = false)
    by (rewrite has_char_app, Sm; reflexivity).
  assert (Ejoin : path_join folder (month ++ ".csv")
                  = folder ++ String "/"%char (month ++ ".csv")).
  { unfold path_join. rewrite (not_startswith_slash _ Hfile).
    rewrite Ex at 1 2. rewrite (length_app_nonempty x Hne).
    rewrite (not_endswith_slash x Hne Sy). reflexivity. }
  rewrite Ejoin. unfold Catalog.month_year_of.
  rewrite split_app_sep, Esplit, (split_no_sep _ _ Hfile), <- app_assoc.
  destruct (@index_from_end_two _ pre year (month ++ ".csv")) as [H2 H1].
  cbn [app] in H2, H1 |- *. rewrite H2, H1.
  rewrite (replace_csv_suffix _ Hdot). reflexivity.
Qed.

Lemma reorganised_file_is_read_back_example :
  exists p,
    new_region_file "cleaned" "2022-07" "2022-07-lancashire-street.csv" = Some p
    /\ Catalog.month_year_of p = Some "2022-07".
Proof.
  apply (@reorganised_file_is_read_back
           "cleaned" "2022-07" "2022-07-lancashire-street.csv" "2022" "07").
  - reflexivity.
  - reflexivity.
  - discriminate.
  - reflexivity.
Defined.

End ReorganiseProps.

(** ** Uploads to the bucket *)

Module GcsProps.

Import Py PyStr Gcs.



(** X27: when the local file exists and nothing fails, a call that does
    not skip (the blob is absent, or [skip_existing] is off) leaves the
    blob with the content of the local file; when the local file does
    not exist the bucket is what it was and a warning is logged. *)
Theorem upload_file_to_gcs_uploads
  region year month local_folder bucket_name skip_existing w :
  let f := {| service_fault := None; upload_fault := None |} in
  let o := upload_file_to_gcs f region year month local_folder bucket_name
             skip_existing w in
  (forall c,
     local_files w (local_file_of local_folder region year month) = Some c ->
     skip_existing = false \/ bucket w (gcs_path_of region year month) = None ->
     bucket (world_of o) (gcs_path_of region year month) = Some c)
  /\ (local_files w (local_file_of local_folder region year month) = None ->
      o = Returned
            (add_log (WARNING,
                      "File not found: "
                      ++ local_file_of local_folder region year month) w)).
Proof.
  cbv zeta. unfold upload_file_to_gcs. cbn [service_fault upload_fault]. split.
  - intros c Hc Hcase. rewrite Hc.
    assert (E : skip_existing
                && is_some (bucket w (gcs_path_of region year month)) = false).
    { destruct Hcase as [->| ->]; [reflexivity|apply andb_false_r]. }
    rewrite E. cbn [world_of add_log put bucket].
    rewrite String.eqb_refl. reflexivity.
  - intros ->. reflexivity.
Qed.

Lemma upload_file_to_gcs_uploads_example :
  let w := {| local_files := fun p =>
                if String.eqb p "data/lancashire/2023/09.csv"
                then Some "rows" else None;
              bucket := fun _ => None;
              log := [] |} in
  bucket (world_of (upload_file_to_gcs
                      {| service_fault := None; upload_fault := None |}
                      "lancashire" "2023" "09" "data" "police-street-crime-data"
                      true w))
         "lancashire/year=2023/month=09/09.csv"
  = Some "rows"
  /\ upload_file_to_gcs {| service_fault := None; upload_fault := None |}
       "lancashire" "2023" "10" "data" "police-street-crime-data" true w
     = Returned (add_log (WARNING, "File not found: data/lancashire/2023/10.csv") w).
Proof.
  cbv zeta. split.
  - apply (@upload_file_to_gcs_uploads
             "lancashire" "2023" "09" "data" "police-street-crime-data" true).
    + reflexivity.
    + right. reflexivity.
  - apply (@upload_file_to_gcs_uploads
             "lancashire" "2023" "10" "data" "police-street-crime-data" true).
    reflexivity.
Defined.

End GcsProps.

(** ** The download configuration *)

Module ConfigProps.

Import Config.

Lemma active_ids_force_entries (entries : list (string * bool)) :
  active_ids (map (fun e => force_entry (fst e) (snd e)) entries)
  = inr (map (fun e => JStr (fst e)) (filter snd entries)).
Proof.
  induction entries as [|[id active] rest IH]; [reflexivity|].
  cbn [map filter fst snd active_ids force_entry get item lookup String.eqb
       Ascii.eqb Bool.eqb truthy].
  destruct active.
  - rewrite IH. reflexivity.
  - exact IH.
Qed.

(** X28: from a configuration file that lists its forces with an id
    and an active flag each, the function returns the two dates and the
    ids of the active forces, in the order of the file; the inactive
    forces are left out and nothing is logged as a failure. *)
Theorem extract_json_file_active_forces
  start_date end_date (entries : list (string * bool)) :
  extract_json_file
    (Loaded (config_file start_date end_date
               (map (fun e => force_entry (fst e) (snd e)) entries)))
  = (Some ((JStr start_date, JStr end_date),
           map (fun e => JStr (fst e)) (filter snd entries)),
     None).
Proof.
  unfold extract_json_file, read_config, config_file.
  cbn [get lookup String.eqb Ascii.eqb Bool.eqb iterate].
  rewrite active_ids_force_entries. reflexivity.
Qed.

(** an inactive force is passed over before its id is read *)
Lemma active_ids_skips_inactive force rest :
  get force "active" (JBool false) = inr (JBool false) ->
  active_ids (force :: rest) = active_ids rest.
Proof. intros H. cbn [active_ids]. rewrite H. reflexivity. Qed.

(** X29: the id is read of active forces only.  A force without an id
    makes the function return None, through the KeyError clause, when it
    is active; when it is not active it is passed over and the result is
    what it is without that force. *)
Theorem extract_json_file_force_without_id
  start_date end_date before after (active : json) :
  (forall f, In f before -> exists id a, f = force_entry id a) ->
  let force := JDict [("active", active)] in
  extract_json_file
    (Loaded (config_file start_date end_date (before ++ force :: after)%list))
  = if truthy active then (None, Some KeyError)
    else extract_json_file
           (Loaded (config_file start_date end_date (before ++ after)%list)).
Proof.
  intros Hb. cbv zeta.
  unfold extract_json_file, read_config, config_file.
  cbn [get lookup String.eqb Ascii.eqb Bool.eqb iterate].
  assert (H : forall l,
            active_ids (l ++ JDict [("active", active)] :: after)%list
            = if truthy active
              then match active_ids l with
                   | inl e => inl e
                   | inr _ => inl KeyError
                   end
              else active_ids (l ++ after)%list).
  { induction l as [|f l IHl].
    - cbn [app active_ids get item lookup String.eqb Ascii.eqb Bool.eqb].
      destruct (truthy active); reflexivity.
    - cbn [app active_ids]. destruct (get f "active" (JBool false)) as [e|a].
      + destruct (truthy active); reflexivity.
      + destruct (truthy a).
        * destruct (item f "id") as [e|id]; [destruct (truthy active); reflexivity|].
          rewrite IHl. destruct (truthy active); [|reflexivity].
          destruct (active_ids l); reflexivity.
        * exact IHl. }
  rewrite H.
  assert (Hok : exists ids, active_ids before = inr ids).
  { clear H. induction before as [|f l IHl]; [exists []; reflexivity|].
    destruct (Hb f (or_introl eq_refl)) as (id & a & ->).
    destruct IHl as [ids Hids]; [intros g Hg; apply Hb; right; exact Hg|].
    cbn [active_ids force_entry get item lookup String.eqb Ascii.eqb Bool.eqb truthy].
    rewrite Hids. destruct a; eexists; reflexivity. }
  destruct Hok as [ids Hids]. rewrite Hids.
  destruct (truthy active); reflexivity.
Qed.

Lemma extract_json_file_force_without_id_example :
  extract_json_file
    (Loaded (config_file "2022-07" "2023-06"
               [force_entry "lancashire" true; JDict [("active", JBool true)]]))
  = (None, Some KeyError)
  /\ extract_json_file
       (Loaded (config_file "2022-07" "2023-06"
                  [force_entry "lancashire" true; JDict [("active", JBool false)]]))
     = (Some ((JStr "2022-07", JStr "2023-06"), [JStr "lancashire"]), None).
Proof.
  split.
  - apply (@extract_json_file_force_without_id "2022-07" "2023-06"
             [force_entry "lancashire" true] [] (JBool true)).
    intros f [<-|[]]. exists "lancashire", true. reflexivity.
  - pose proof (@extract_json_file_force_without_id "2022-07" "2023-06"
                  [force_entry "lancashire" true] [] (JBool false)) as H.
    cbv zeta in H. cbn [app truthy] in H. rewrite H.
    + reflexivity.
    + intros f [<-|[]]. exists "lancashire", true. reflexivity.
Defined.

(** X30: no date, no result: when the file cannot be opened, is not
    JSON, or its dates lack a start or an end (or give null for one),
    the function returns None; in the last case through the KeyError
    clause, provided the forces could be read. *)
Theorem extract_json_file_without_dates data forces ids dates start_date end_date :
  get data "forces" (JList []) = inr forces ->
  iterate forces = inr ids ->
  (exists l, active_ids ids = inr l) ->
  get data "dates" (JDict []) = inr (JDict dates) ->
  lookup "start_date" dates = start_date ->
  lookup "end_date" dates = end_date ->
  start_date = None \/ start_date = Some JNull
  \/ end_date = None \/ end_date = Some JNull ->
  extract_json_file (Loaded data) = (None, Some KeyError)
  /\ extract_json_file NoSuchFile = (None, Some FileNotFoundError)
  /\ extract_json_file NotJson = (None, Some JSONDecodeError).
Proof.
  intros Hf Hi [l Hl] Hd Hs He Hcase.
  split; [|split; reflexivity].
  unfold extract_json_file, read_config.
  rewrite Hf, Hi, Hl, Hd. cbn [get]. rewrite Hs, He.
  destruct Hcase as [-> | [-> | [-> | ->]]]; cbn [is_none orb].
  - reflexivity.
  - reflexivity.
  - destruct start_date as [[]|]; reflexivity.
  - destruct start_date as [[]|]; reflexivity.
Qed.

Lemma extract_json_file_without_dates_example :
  extract_json_file
    (Loaded (JDict [("dates", JDict [("start_date", JStr "2022-07")]);
                    ("forces", JList [force_entry "lancashire" true])]))
  = (None, Some KeyError)
  /\ extract_json_file NoSuchFile = (None, Some FileNotFoundError)
  /\ extract_json_file NotJson = (None, Some JSONDecodeError).
Proof.
  eapply (@extract_json_file_without_dates
            (JDict [("dates", JDict [("start_date", JStr "2022-07")]);
                    ("forces", JList [force_entry "lancashire" true])])).
  - reflexivity.
  - reflexivity.
  - eexists. reflexivity.
  - reflexivity.
  - reflexivity.
  - reflexivity.
  - right. right. left. reflexivity.
Defined.

End ConfigProps.

